(** * Authentication core of the Personal Budget Analyzer backend

    A shallow embedding of [backend/src/auth.ts], [backend/src/middleware/auth.ts]
    and [backend/src/routes/auth.ts].  JavaScript values are embedded as the
    code uses them: strings as [string], [string | undefined] as
    [option string], numbers that hold database ids and epoch times as [Z],
    JSON bodies as the inductive [Json].  A function that may throw (or an
    awaited promise that may reject) returns a [Completion]; request handlers
    run in the state-and-exception monad [M] over the database, the response
    under construction and a log of the calls they make. *)

From Stdlib Require Import String Ascii List ZArith Lia Bool.
From Stdlib Require Import Strings.Byte.
Import ListNotations.

Local Open Scope string_scope.
Local Open Scope Z_scope.

#[local] Set Warnings "-register-all".

(* ================================================================== *)
(** ** JavaScript runtime fragments *)
(* ================================================================== *)

(** JSON values, as [req.body] and the argument of [res.json]. *)
Inductive Json : Type :=
| JNull
| JBool (b : bool)
| JNum (n : Z)
| JStr (s : string)
| JArr (items : list Json)
| JObj (fields : list (string * Json)).

(** Issues carried by a [ZodError] (zod's issue codes). *)
Inductive ZodIssue : Type :=
| invalid_type (path : list string) (expected received : string)
| invalid_string (path : list string) (message : string)
| too_small (path : list string) (minimum : Z) (message : string).

(** What a [throw] carries. *)
Inductive JsError : Type :=
| ZodError (issues : list ZodIssue)
| JsonWebTokenError (message : string)
| TokenExpiredError (message : string)
| DatabaseError (message : string)
| Error (message : string).

(** Completion of an evaluation: a value, or a thrown error. *)
Inductive Completion (A : Type) : Type :=
| Return (a : A)
| Throw (e : JsError).
Arguments Return {A} a.
Arguments Throw {A} e.

(** [try { body } catch { handler }] on a pure evaluation. *)
Definition try_catch {A : Type} (body : Completion A) (handler : JsError -> Completion A)
  : Completion A :=
  match body with
  | Return a => Return a
  | Throw e => handler e
  end.

(** Truthiness of a string: only the empty string is falsy. *)
Definition truthy (s : string) : bool :=
  match s with
  | EmptyString => false
  | String _ _ => true
  end.

(** Truthiness of a [string | undefined]. *)
Definition truthy_opt (v : option string) : bool :=
  match v with
  | None => false
  | Some s => truthy s
  end.

(** The string held by a [string | undefined] known to be truthy. *)
Definition string_value (v : option string) : string :=
  match v with
  | Some s => s
  | None => EmptyString
  end.

(** [a || b] where [a : string | undefined] and [b : string]. *)
Definition js_or (a : option string) (b : string) : string :=
  match a with
  | Some s => if truthy s then s else b
  | None => b
  end.

(** [a && f(a)] where [a : string | undefined]: a falsy [a] is the result. *)
Definition js_and (a : option string) (f : string -> option string) : option string :=
  match a with
  | Some s => if truthy s then f s else Some s
  | None => None
  end.

(** [String.prototype.split] with a one-character separator. *)
Fixpoint split (sep : ascii) (s : string) : list string :=
  match s with
  | EmptyString => [EmptyString]
  | String c s' =>
      if Ascii.eqb c sep then EmptyString :: split sep s'
      else match split sep s' with
           | seg :: rest => String c seg :: rest
           | [] => [String c EmptyString]
           end
  end.

(** Property access on a JSON object: [None] is [undefined]. *)
Fixpoint lookup (key : string) (fields : list (string * Json)) : option Json :=
  match fields with
  | [] => None
  | (k, v) :: rest => if String.eqb k key then Some v else lookup key rest
  end.

(** zod's name for the type of a parsed value. *)
Definition parsed_type (v : option Json) : string :=
  match v with
  | None => "undefined"
  | Some JNull => "null"
  | Some (JBool _) => "boolean"
  | Some (JNum _) => "number"
  | Some (JStr _) => "string"
  | Some (JArr _) => "array"
  | Some (JObj _) => "object"
  end.

(* ================================================================== *)
(** ** The process: environment, clock, randomness *)
(* ================================================================== *)

(** What the code reads from its process while serving one request:
    [process.env], [Date.now()] in milliseconds, and the bytes the operating
    system's random source hands out. *)
Record World : Type := {
  env : string -> option string;
  now : Z;
  random : nat -> byte
}.

Definition randomBytes (w : World) (n : nat) : list byte :=
  map (random w) (seq 0 n).

(* ================================================================== *)
(** ** Interfaces of the imported packages *)
(* ================================================================== *)

(** The identity a verified token decodes to: [{ userId, iat, exp }]. *)
Record Decoded : Type := {
  userId : Z;
  iat : Z;
  exp : Z
}.

Record SignOptions : Type := {
  expiresIn : string
}.

(** [import bcrypt from 'bcrypt']: the two calls the code makes.
    [bcrypt_hash w data saltRounds] draws its salt from [w]. *)
Record BcryptLib : Type := {
  bcrypt_hash : World -> string -> Z -> Completion string;
  bcrypt_compare : string -> string -> Completion bool
}.

(** [import jwt from 'jsonwebtoken']: [jwt.sign({ userId }, secret, options)]
    and [jwt.verify(token, secret)], both reading the clock of [w]. *)
Record JwtLib : Type := {
  jwt_sign : World -> Z -> string -> SignOptions -> Completion string;
  jwt_verify : World -> string -> string -> Completion Decoded
}.

(* ================================================================== *)
(** ** The [users] table behind [pool.query] *)
(* ================================================================== *)

(** A row of [users]: [id SERIAL PRIMARY KEY], [email VARCHAR(255) UNIQUE
    NOT NULL], [password_hash VARCHAR(255) NOT NULL], [name VARCHAR(100)],
    [created_at TIMESTAMP DEFAULT CURRENT_TIMESTAMP]. *)
Module User.
Record Row : Type := {
  id : Z;
  email : string;
  password_hash : string;
  name : option string;
  created_at : Z
}.
End User.
Definition UserRow : Type := User.Row.

Record Db : Type := {
  users : list UserRow;
  next_id : Z
}.

(** The four statements the routes send, with their parameters. *)
Inductive Sql : Type :=
| SelectIdByEmail (email : string)
| InsertUser (email passwordHash : string) (name : option string)
| SelectCredentialsByEmail (email : string)
| SelectUserById (userId : option Z).

Definition sql_text (q : Sql) : string :=
  match q with
  | SelectIdByEmail _ => "SELECT id FROM users WHERE email = $1"
  | InsertUser _ _ _ =>
      "INSERT INTO users (email, password_hash, name) VALUES ($1, $2, $3) RETURNING id, email, created_at"
  | SelectCredentialsByEmail _ => "SELECT id, email, password_hash FROM users WHERE email = $1"
  | SelectUserById _ => "SELECT id, email, name, created_at FROM users WHERE id = $1"
  end.

Definition by_email (e : string) (r : UserRow) : bool := String.eqb (User.email r) e.

Definition fits (limit : nat) (s : string) : bool := Nat.leb (String.length s) limit.

(** Execution of one statement: the rows returned and the table afterwards,
    or the error the database raises (the table is then left as it was). *)
Definition execute (w : World) (q : Sql) (db : Db) : Completion (list UserRow) * Db :=
  match q with
  | SelectIdByEmail e => (Return (filter (by_email e) (users db)), db)
  | SelectCredentialsByEmail e => (Return (filter (by_email e) (users db)), db)
  | SelectUserById None => (Return [], db)
  | SelectUserById (Some i) => (Return (filter (fun r => User.id r =? i) (users db)), db)
  | InsertUser e h n =>
      if existsb (by_email e) (users db) then
        (Throw (DatabaseError "duplicate key value violates unique constraint"), db)
      else if negb (fits 255 e && fits 255 h) then
        (Throw (DatabaseError "value too long for type character varying(255)"), db)
      else if negb (match n with Some s => fits 100 s | None => true end) then
        (Throw (DatabaseError "value too long for type character varying(100)"), db)
      else
        let row := {| User.id := next_id db; User.email := e; User.password_hash := h;
                      User.name := n; User.created_at := now w |} in
        (Return [row], {| users := users db ++ [row]; next_id := next_id db + 1 |})
  end.

(* ================================================================== *)
(** ** Express: request, response, and the handler monad *)
(* ================================================================== *)

Record Request : Type := {
  authorization : option string;   (* req.headers['authorization'] *)
  body : Json;                     (* req.body *)
  req_userId : option Z            (* req.userId *)
}.

(** The response under construction: [res.status(...)] then [res.json(...)]. *)
Record Response : Type := {
  status : Z;
  sent : option Json
}.

Definition fresh_response : Response := {| status := 200; sent := None |}.

(** Calls a handler makes to its collaborators, in order. *)
Inductive Event : Type :=
| CallHashPassword (password : string)
| CallVerifyPassword (password hash : string)
| CallGenerateToken (userId : Z)
| CallVerifyToken (token : string)
| CallQuery (q : Sql)
| CallNext
| ConsoleError (label : string).

Record St : Type := {
  db : Db;
  res : Response;
  calls : list Event
}.

Definition M (A : Type) : Type := St -> Completion A * St.

Definition ret {A : Type} (a : A) : M A := fun s => (Return a, s).

Definition bind {A B : Type} (m : M A) (k : A -> M B) : M B :=
  fun s =>
    match m s with
    | (Return a, s') => k a s'
    | (Throw e, s') => (Throw e, s')
    end.

Definition throw {A : Type} (e : JsError) : M A := fun s => (Throw e, s).

(** [await p] / the value of a call that may throw. *)
Definition await {A : Type} (c : Completion A) : M A := fun s => (c, s).

(** [try { body } catch (error) { handler }] around effectful code. *)
Definition try_catch_M {A : Type} (body : M A) (handler : JsError -> M A) : M A :=
  fun s =>
    match body s with
    | (Return a, s') => (Return a, s')
    | (Throw e, s') => handler e s'
    end.

Definition record (ev : Event) : M unit :=
  fun s => (Return tt, {| db := db s; res := res s; calls := calls s ++ [ev] |}).

Declare Scope handler_scope.
Delimit Scope handler_scope with handler.
Notation "x <- m ;; k" := (bind m (fun x => k))
  (at level 61, m at next level, right associativity) : handler_scope.
Notation "' p <- m ;; k" := (bind m (fun x => let 'p := x in k))
  (at level 61, p pattern, m at next level, right associativity) : handler_scope.
Notation "m ;; k" := (bind m (fun _ => k))
  (at level 61, right associativity) : handler_scope.

(** A call to a collaborator: it is recorded, then its completion awaited. *)
Definition call {A : Type} (ev : Event) (c : Completion A) : M A :=
  (record ev ;; await c)%handler.

(** [res.status(code).json(payload)]. *)
Definition res_status_json (code : Z) (payload : Json) : M unit :=
  fun s => (Return tt, {| db := db s; res := {| status := code; sent := Some payload |};
                          calls := calls s |}).

(** [await pool.query(text, params)], returning [result.rows]. *)
Definition pool_query (w : World) (q : Sql) : M (list UserRow) :=
  (record (CallQuery q) ;;
   fun s => let '(r, d) := execute w q (db s) in
            (r, {| db := d; res := res s; calls := calls s |}))%handler.

Definition console_error (label : string) : M unit := record (ConsoleError label).

(* ================================================================== *)
(** ** The application code, over the imported packages *)
(* ================================================================== *)

Section App.

Variable bcrypt : BcryptLib.
Variable jwt : JwtLib.
(** zod's test behind [z.string().email(...)]. *)
Variable zod_email : string -> bool.

(* ------------------------------------------------------------------ *)
(** *** backend/src/auth.ts *)

Definition JWT_SECRET (w : World) : string :=
  js_or (env w "JWT_SECRET") "your_super_secret_key_here_min_32_chars".

Definition JWT_EXPIRES_IN (w : World) : string :=
  js_or (env w "JWT_EXPIRES_IN") "7d".

Definition hashPassword (w : World) (password : string) : Completion string :=
  let saltRounds := 10 in
  bcrypt_hash bcrypt w password saltRounds.

Definition verifyPassword (password hash : string) : Completion bool :=
  bcrypt_compare bcrypt password hash.

Definition generateToken (w : World) (userId : Z) : Completion string :=
  jwt_sign jwt w userId (JWT_SECRET w) {| expiresIn := JWT_EXPIRES_IN w |}.

Definition verifyToken (w : World) (token : string) : Completion (option Decoded) :=
  try_catch
    (match jwt_verify jwt w token (JWT_SECRET w) with
     | Return decoded => Return (Some decoded)
     | Throw e => Throw e
     end)
    (fun _ => Return None).

(* ------------------------------------------------------------------ *)
(** *** backend/src/middleware/auth.ts *)

Definition rejection (message : string) : Json :=
  JObj [("success", JBool false); ("message", JStr message)].

Definition authenticateToken (w : World) (req : Request) (next : Request -> M unit)
  : M unit :=
  let authHeader := authorization req in
  let token := js_and authHeader (fun h => nth_error (split " " h) 1) in
  if negb (truthy_opt token) then
    res_status_json 401 (rejection "Access token required")
  else
    (let token := string_value token in
     decoded <- call (CallVerifyToken token) (verifyToken w token) ;;
     match decoded with
     | None => res_status_json 401 (rejection "Invalid or expired token")
     | Some d =>
         record CallNext ;;
         next {| authorization := authorization req; body := body req;
                 req_userId := Some (userId d) |}
     end)%handler.

(* ------------------------------------------------------------------ *)
(** *** backend/src/routes/auth.ts *)

(** [z.string()] followed by its checks, at key [key] of the body. *)
Definition zod_string (key : string) (v : option Json) (checks : string -> list ZodIssue)
  : list ZodIssue :=
  match v with
  | Some (JStr s) => checks s
  | _ => [invalid_type [key] "string" (parsed_type v)]
  end.

Definition email_check (s : string) : list ZodIssue :=
  if zod_email s then [] else [invalid_string ["email"] "Invalid email format"].

Definition min_check (key : string) (minimum : nat) (message : string) (s : string)
  : list ZodIssue :=
  if Nat.leb minimum (String.length s) then []
  else [too_small [key] (Z.of_nat minimum) message].

Definition as_string (v : option Json) : string :=
  match v with
  | Some (JStr s) => s
  | _ => ""
  end.

(** [RegisterSchema.parse(req.body)]. *)
Definition RegisterSchema_parse (b : Json)
  : Completion (string * string * option string) :=
  match b with
  | JObj fields =>
      let issues :=
        (zod_string "email" (lookup "email" fields) email_check
         ++ zod_string "password" (lookup "password" fields)
              (min_check "password" 6 "Password must be at least 6 characters")
         ++ match lookup "name" fields with
            | None => []
            | v => zod_string "name" v (fun _ => [])
            end)%list in
      match issues with
      | [] => Return (as_string (lookup "email" fields),
                      as_string (lookup "password" fields),
                      match lookup "name" fields with
                      | Some (JStr n) => Some n
                      | _ => None
                      end)
      | _ => Throw (ZodError issues)
      end
  | _ => Throw (ZodError [invalid_type [] "object" (parsed_type (Some b))])
  end.

(** [LoginSchema.parse(req.body)]. *)
Definition LoginSchema_parse (b : Json) : Completion (string * string) :=
  match b with
  | JObj fields =>
      let issues :=
        (zod_string "email" (lookup "email" fields) email_check
         ++ zod_string "password" (lookup "password" fields)
              (min_check "password" 1 "Password is required"))%list in
      match issues with
      | [] => Return (as_string (lookup "email" fields),
                      as_string (lookup "password" fields))
      | _ => Throw (ZodError issues)
      end
  | _ => Throw (ZodError [invalid_type [] "object" (parsed_type (Some b))])
  end.

Definition issue_json (i : ZodIssue) : Json :=
  let path_json p := JArr (map JStr p) in
  match i with
  | invalid_type p e r =>
      JObj [("code", JStr "invalid_type"); ("expected", JStr e); ("received", JStr r);
            ("path", path_json p)]
  | invalid_string p m =>
      JObj [("code", JStr "invalid_string"); ("message", JStr m); ("path", path_json p)]
  | too_small p n m =>
      JObj [("code", JStr "too_small"); ("minimum", JNum n); ("message", JStr m);
            ("path", path_json p)]
  end.

(** The [catch (error)] block shared by register and login. *)
Definition on_error (label : string) (error : JsError) : M unit :=
  match error with
  | ZodError issues =>
      res_status_json 400
        (JObj [("success", JBool false); ("message", JStr "Validation error");
               ("errors", JArr (map issue_json issues))])
  | _ =>
      (console_error label ;;
       res_status_json 500 (rejection "Internal server error"))%handler
  end.

Definition opt_json (v : option string) : Json :=
  match v with
  | Some s => JStr s
  | None => JNull
  end.

(** [router.post('/register', ...)]. *)
Definition register (w : World) (req : Request) : M unit :=
  try_catch_M
    ('(email, password, name) <- await (RegisterSchema_parse (body req)) ;;
     existingUser <- pool_query w (SelectIdByEmail email) ;;
     if (0 <? length existingUser)%nat then
       res_status_json 400 (rejection "Email already exists")
     else
       passwordHash <- call (CallHashPassword password) (hashPassword w password) ;;
       result <- pool_query w
         (InsertUser email passwordHash
            (match name with
             | Some n => if truthy n then Some n else None
             | None => None
             end)) ;;
       match result with
       | user :: _ =>
           res_status_json 201
             (JObj [("success", JBool true);
                    ("message", JStr "User registered successfully");
                    ("user", JObj [("id", JNum (User.id user));
                                   ("email", JStr (User.email user));
                                   ("created_at", JNum (User.created_at user))])])
       | [] => throw (Error "Cannot read properties of undefined (reading 'id')")
       end)%handler
    (on_error "Register error:").

(** [router.post('/login', ...)]. *)
Definition login (w : World) (req : Request) : M unit :=
  try_catch_M
    ('(email, password) <- await (LoginSchema_parse (body req)) ;;
     result <- pool_query w (SelectCredentialsByEmail email) ;;
     match result with
     | [] => res_status_json 401 (rejection "Invalid email or password")
     | user :: _ =>
         passwordMatch <- call (CallVerifyPassword password (User.password_hash user))
                               (verifyPassword password (User.password_hash user)) ;;
         if negb passwordMatch then
           res_status_json 401 (rejection "Invalid email or password")
         else
           token <- call (CallGenerateToken (User.id user))
                        (generateToken w (User.id user)) ;;
           res_status_json 200
             (JObj [("success", JBool true);
                    ("message", JStr "Login successful");
                    ("token", JStr token);
                    ("user", JObj [("id", JNum (User.id user));
                                   ("email", JStr (User.email user))])])
     end)%handler
    (on_error "Login error:").

(** The handler behind [router.get('/me', authenticateToken, ...)]. *)
Definition me (w : World) (req : Request) : M unit :=
  try_catch_M
    (let userId := req_userId req in
     result <- pool_query w (SelectUserById userId) ;;
     match result with
     | [] => res_status_json 404 (rejection "User not found")
     | user :: _ =>
         res_status_json 200
           (JObj [("success", JBool true);
                  ("user", JObj [("id", JNum (User.id user));
                                 ("email", JStr (User.email user));
                                 ("name", opt_json (User.name user));
                                 ("created_at", JNum (User.created_at user))])])
     end)%handler
    (fun _ =>
       (console_error "Get user error:" ;;
        res_status_json 500 (rejection "Internal server error"))%handler).

Definition get_me (w : World) (req : Request) : M unit :=
  authenticateToken w req (me w).

End App.

(* ================================================================== *)
(** ** The bcrypt package *)
(* ================================================================== *)

Module Bcrypt.

(** bcrypt's radix-64 alphabet and its encoder of raw bytes. *)
Definition Base64Code : string :=
  "./ABCDEFGHIJKLMNOPQRSTUVWXYZabcdefghijklmnopqrstuvwxyz0123456789".

Definition code (n : N) : ascii :=
  match String.get (N.to_nat n) Base64Code with
  | Some c => c
  | None => "."%char
  end.

Fixpoint encode_base64 (data : list byte) : string :=
  match data with
  | [] => EmptyString
  | [b1] =>
      let c1 := Byte.to_N b1 in
      String (code (N.shiftr c1 2))
        (String (code (N.shiftl (N.land c1 3) 4)) EmptyString)
  | [b1; b2] =>
      let c1 := Byte.to_N b1 in
      let c2 := Byte.to_N b2 in
      String (code (N.shiftr c1 2))
        (String (code (N.lor (N.shiftl (N.land c1 3) 4) (N.land (N.shiftr c2 4) 15)))
           (String (code (N.shiftl (N.land c2 15) 2)) EmptyString))
  | b1 :: b2 :: b3 :: rest =>
      let c1 := Byte.to_N b1 in
      let c2 := Byte.to_N b2 in
      let c3 := Byte.to_N b3 in
      String (code (N.shiftr c1 2))
        (String (code (N.lor (N.shiftl (N.land c1 3) 4) (N.land (N.shiftr c2 4) 15)))
           (String (code (N.lor (N.shiftl (N.land c2 15) 2) (N.land (N.shiftr c3 6) 3)))
              (String (code (N.land c3 63)) (encode_base64 rest))))
  end.

Definition digit (d : Z) : ascii := ascii_of_N (48 + Z.to_N d).

Definition digit_value (c : ascii) : option Z :=
  let n := Z.of_N (N_of_ascii c) in
  if (48 <=? n) && (n <=? 57) then Some (n - 48) else None.

(** The cost, printed on two digits. *)
Definition two_digits (n : Z) : string :=
  String (digit (n / 10)) (String (digit (n mod 10)) EmptyString).

(** [$2$], [$2a$] or [$2b$], then the cost and [$]. *)
Definition header (minor : string) (cost : Z) : string :=
  "$2" ++ minor ++ "$" ++ two_digits cost ++ "$".

(** The optional minor version letter after [$2]. *)
Definition minor_of (rest : string) : string * string :=
  match rest with
  | String m r =>
      if Ascii.eqb m "a" || Ascii.eqb m "b" then (String m EmptyString, r)
      else (EmptyString, rest)
  | EmptyString => (EmptyString, rest)
  end.

(** The version, cost and 22-character salt a hash or salt string embeds. *)
Definition parse (s : string) : option (string * Z * string) :=
  match s with
  | String c0 (String c1 rest) =>
      if Ascii.eqb c0 "$" && Ascii.eqb c1 "2" then
        let '(minor, rest) := minor_of rest in
        match rest with
        | String c2 (String d1 (String d2 (String c3 tail))) =>
            if Ascii.eqb c2 "$" && Ascii.eqb c3 "$" then
              match digit_value d1, digit_value d2 with
              | Some v1, Some v2 =>
                  let n := 10 * v1 + v2 in
                  if (4 <=? n) && (n <=? 31) && Nat.leb 22 (String.length tail)
                  then Some (minor, n, substring 0 22 tail)
                  else None
              | _, _ => None
              end
            else None
        | _ => None
        end
      else None
  | _ => None
  end.

Definition is_minor (minor : string) : Prop :=
  minor = "" \/ minor = "a" \/ minor = "b".

(** A hash string from which version, cost and salt can be read. *)
Definition WellFormed (h : string) : Prop :=
  exists minor cost salt rest,
    h = header minor cost ++ salt ++ rest
    /\ is_minor minor
    /\ 4 <= cost <= 31
    /\ String.length salt = 22%nat.

Section Model.

(** The expensive key schedule and encryption of bcrypt, radix-64 encoded:
    [crypt cost salt key]. *)
Variable crypt : Z -> string -> string -> string.

Definition gen_salt (w : World) (rounds : Z) : string :=
  let rounds := if rounds <? 4 then 4 else if 31 <? rounds then 31 else rounds in
  header "b" rounds ++ encode_base64 (randomBytes w 16).

Definition hashpw (key salt : string) : option string :=
  match parse salt with
  | Some (minor, cost, salt22) => Some (header minor cost ++ salt22 ++ crypt cost salt22 key)
  | None => None
  end.

(** Modelled from the spec: [bcrypt.hash(data, saltRounds)] of the bcrypt
    package, which is imported and not under src/.  A fresh 16-byte salt is
    drawn, and the hash string embeds the cost and the salt in front of the
    digest. *)
Definition hash (w : World) (data : string) (saltRounds : Z) : Completion string :=
  match hashpw data (gen_salt w saltRounds) with
  | Some h => Return h
  | None => Throw (Error "Invalid salt. Salt must be in the form of: $Vers$log2(NumRounds)$saltvalue")
  end.

(** Modelled from the spec: [bcrypt.compare(data, hash)] of the bcrypt
    package, which is imported and not under src/.  The plaintext is hashed
    again with the cost and salt embedded in the hash string and the result
    compared with it; a string that embeds none compares false. *)
Definition compare (data h : string) : Completion bool :=
  Return (match hashpw data h with
          | Some h' => String.eqb h' h
          | None => false
          end).

Definition lib : BcryptLib := {| bcrypt_hash := hash; bcrypt_compare := compare |}.

End Model.

End Bcrypt.

(* ================================================================== *)
(** ** The jsonwebtoken package *)
(* ================================================================== *)

Module Jwt.

(** A token before it is serialized: the claims and the signature over them. *)
Record Signed : Type := {
  payload : Decoded;
  signature : string
}.

Section Model.

(** The [ms] package: the milliseconds a time span such as ["7d"] denotes. *)
Variable ms : string -> option Z.
(** The keyed signature of the claims under a secret. *)
Variable hmac : string -> Decoded -> string.
(** The compact serialization of a signed token, and its reader. *)
Variable serialize : Signed -> string.
Variable deserialize : string -> option Signed.

(** Modelled from the spec: [jwt.sign({ userId }, secret, { expiresIn })] of
    the jsonwebtoken package, which is imported and not under src/.  The
    token encodes the user id with the issued-at and expiry claims (in
    seconds) and is signed with the secret. *)
Definition sign (w : World) (userId : Z) (secret : string) (options : SignOptions)
  : Completion string :=
  if negb (truthy secret) then Throw (Error "secretOrPrivateKey must have a value")
  else
    match ms (expiresIn options) with
    | None =>
        Throw (Error "expiresIn should be a number of seconds or string representing a timespan")
    | Some span =>
        let timestamp := now w / 1000 in
        let claims := {| userId := userId; iat := timestamp;
                         exp := timestamp + span / 1000 |} in
        Return (serialize {| payload := claims; signature := hmac secret claims |})
    end.

(** Modelled from the spec: [jwt.verify(token, secret)] of the jsonwebtoken
    package, which is imported and not under src/.  It throws on a token
    that cannot be read, on a signature that does not match the secret and
    on a token whose expiry has passed; otherwise it returns the claims. *)
Definition verify (w : World) (token secret : string) : Completion Decoded :=
  match deserialize token with
  | None => Throw (JsonWebTokenError "jwt malformed")
  | Some t =>
      if negb (truthy secret) then
        Throw (JsonWebTokenError "secret or public key must be provided")
      else if negb (String.eqb (signature t) (hmac secret (payload t))) then
        Throw (JsonWebTokenError "invalid signature")
      else if exp (payload t) <=? now w / 1000 then
        Throw (TokenExpiredError "jwt expired")
      else Return (payload t)
  end.

Definition lib : JwtLib := {| jwt_sign := sign; jwt_verify := verify |}.

End Model.

End Jwt.

(* ================================================================== *)
(** ** A reference instance of the primitives *)
(* ================================================================== *)

(** Small executable stand-ins for the primitives the package models are
    parameterised by.  They serve to run the code on concrete requests; the
    general statements below quantify over the primitives instead. *)
Module Reference.

(** Numbers are written least significant bit first and end with a dot. *)
Fixpoint put_pos (p : positive) (rest : string) : string :=
  match p with
  | xH => String "." rest
  | xO p' => String "0" (put_pos p' rest)
  | xI p' => String "1" (put_pos p' rest)
  end.

Fixpoint get_pos (s : string) : option (positive * string) :=
  match s with
  | EmptyString => None
  | String c rest =>
      if Ascii.eqb c "." then Some (xH, rest)
      else
        match get_pos rest with
        | Some (p, rest') =>
            if Ascii.eqb c "0" then Some (xO p, rest')
            else if Ascii.eqb c "1" then Some (xI p, rest')
            else None
        | None => None
        end
  end.

Definition put_Z (z : Z) (rest : string) : string :=
  match z with
  | Z0 => String "z" rest
  | Zpos p => String "+" (put_pos p rest)
  | Zneg p => String "-" (put_pos p rest)
  end.

Definition get_Z (s : string) : option (Z * string) :=
  match s with
  | EmptyString => None
  | String c rest =>
      if Ascii.eqb c "z" then Some (Z0, rest)
      else
        match get_pos rest with
        | Some (p, rest') =>
            if Ascii.eqb c "+" then Some (Zpos p, rest')
            else if Ascii.eqb c "-" then Some (Zneg p, rest')
            else None
        | None => None
        end
  end.

Definition serialize (t : Jwt.Signed) : string :=
  put_Z (userId (Jwt.payload t))
    (put_Z (iat (Jwt.payload t))
       (put_Z (exp (Jwt.payload t)) (Jwt.signature t))).

Definition deserialize (s : string) : option Jwt.Signed :=
  match get_Z s with
  | Some (u, s1) =>
      match get_Z s1 with
      | Some (i, s2) =>
          match get_Z s2 with
          | Some (e, sig) =>
              Some {| Jwt.payload := {| userId := u; iat := i; exp := e |};
                      Jwt.signature := sig |}
          | None => None
          end
      | None => None
      end
  | None => None
  end.

Definition hmac (secret : string) (claims : Decoded) : string :=
  secret ++ put_Z (userId claims) (put_Z (iat claims) (put_Z (exp claims) "")).

(** The two spans the examples use. *)
Definition ms (span : string) : option Z :=
  if String.eqb span "7d" then Some 604800000
  else if String.eqb span "5s" then Some 5000
  else None.

Definition crypt (cost : Z) (salt key : string) : string := key ++ salt.

Definition zod_email (s : string) : bool :=
  existsb (Ascii.eqb "@") (list_ascii_of_string s).

Definition bcrypt : BcryptLib := Bcrypt.lib crypt.
Definition jwt : JwtLib := Jwt.lib ms hmac serialize deserialize.

(** The token this instance issues to user 1 at time 7000 ms, valid for 7 days. *)
Definition token1 : string :=
  "+.+11.+1110000101011100100.your_super_secret_key_here_min_32_chars+.+11.+1110000101011100100.".

(** A process in which every environment variable is set to "12". *)
Definition configured : World :=
  {| env := fun _ => Some "12"; now := 7000; random := fun n => x2a |}.

(** A process with nothing configured, at time 7000 ms. *)
Definition world : World :=
  {| env := fun _ => None; now := 7000; random := fun n => x2a |}.

Definition start (d : Db) : St := {| db := d; res := fresh_response; calls := [] |}.

Definition empty_db : Db := {| users := []; next_id := 1 |}.

(** The table after a@b.com has registered with password "secret1". *)
Definition registered_db : Db :=
  {| users := [{| User.id := 1; User.email := "a@b.com";
                  User.password_hash :=
                    "$2b$10$IgmoIgmoIgmoIgmoIgmoIesecret1IgmoIgmoIgmoIgmoIgmoIe";
                  User.name := None; User.created_at := 7000 |}];
     next_id := 2 |}.

Definition request (authHeader : option string) (b : Json) (uid : option Z) : Request :=
  {| authorization := authHeader; body := b; req_userId := uid |}.

Definition credentials (e p : string) : Json :=
  JObj [("email", JStr e); ("password", JStr p)].

End Reference.

(* ================================================================== *)
(** ** Vocabulary of the statements *)
(* ================================================================== *)

Fixpoint has_char (c : ascii) (s : string) : bool :=
  match s with
  | EmptyString => false
  | String c' s' => Ascii.eqb c' c || has_char c s'
  end.

(** Nothing, or another space, follows. *)
Definition segment_ends (rest : string) : Prop :=
  rest = "" \/ exists r, rest = String " " r.

(** The Authorization header is absent or carries no token segment: it has
    no space at all, or nothing stands between its first space and the next
    space or the end. *)
Inductive NoTokenSegment : option string -> Prop :=
| header_absent : NoTokenSegment None
| header_single_segment (h : string) :
    has_char " " h = false -> NoTokenSegment (Some h)
| header_empty_segment (scheme rest : string) :
    has_char " " scheme = false -> segment_ends rest ->
    NoTokenSegment (Some (scheme ++ " " ++ rest)).

(** The header carries the token segment [t]: the non-empty text between its
    first space and the next space or the end. *)
Inductive TokenSegment : option string -> string -> Prop :=
| header_token (scheme t rest : string) :
    has_char " " scheme = false -> has_char " " t = false -> t <> "" ->
    segment_ends rest ->
    TokenSegment (Some (scheme ++ " " ++ t ++ rest)) t.

(** [authHeader && authHeader.split(' ')[1]], as [authenticateToken] computes it. *)
Definition extracted (authHeader : option string) : option string :=
  js_and authHeader (fun h => nth_error (split " " h) 1).

(** The row [pool.query] returns first for an email, if any. *)
Definition stored (d : Db) (e : string) : option UserRow :=
  find (by_email e) (users d).

Definition with_env (w : World) (e : string -> option string) : World :=
  {| env := e; now := now w; random := random w |}.

Definition at_time (w : World) (t : Z) : World :=
  {| env := env w; now := t; random := random w |}.

Definition with_authorization (req : Request) (h : option string) : Request :=
  {| authorization := h; body := body req; req_userId := req_userId req |}.

Definition respond (code : Z) (message : string) : Response :=
  {| status := code; sent := Some (rejection message) |}.

(* ================================================================== *)
(** ** backend/src/index.ts: the health check *)
(* ================================================================== *)

(** [app.get('/api/health', ...)], given what [await checkDatabaseConnection()]
    (of db.ts) evaluated to. *)
Definition health (dbConnected : bool) : M unit :=
  if dbConnected then
    res_status_json 200
      (JObj [("status", JStr "ok");
             ("message", JStr "Backend and database are connected");
             ("database", JStr "connected")])
  else
    res_status_json 503
      (JObj [("status", JStr "error");
             ("message", JStr "Database connection failed");
             ("database", JStr "disconnected")]).

(* ================================================================== *)
(** ** The frontend connection check ([App]) *)
(* ================================================================== *)

Module App.

(** The two [useState] cells of the component. *)
Record State : Type := {
  isConnected : bool;
  isLoading : bool
}.


Definition setIsConnected (v : bool) (s : State) : State :=
  {| isConnected := v; isLoading := isLoading s |}.

Definition setIsLoading (v : bool) (s : State) : State :=
  {| isConnected := isConnected s; isLoading := v |}.

(** [await axios.get(url)]: [reply] is the HTTP response, if one arrives.  The
    promise resolves to the body ([response.data]) on a 2xx status and rejects
    otherwise. *)
Definition axios_get (reply : option Response) : Completion Json :=
  match reply with
  | None => Throw (Error "Network Error")
  | Some r =>
      if (200 <=? status r) && (status r <? 300) then
        Return (match sent r with
                | Some data => data
                | None => JStr ""
                end)
      else Throw (Error "Request failed")
  end.

(** [data.key]: reading a property of [null] throws; a value that is no
    object, or an object without the key, gives [undefined]. *)
Definition property (data : Json) (key : string) : Completion (option Json) :=
  match data with
  | JNull => Throw (Error "Cannot read properties of null")
  | JObj fields => Return (lookup key fields)
  | _ => Return None
  end.

(** [v === 'literal']. *)
Definition is_string (v : option Json) (literal : string) : bool :=
  match v with
  | Some (JStr s) => String.eqb s literal
  | _ => false
  end.

(** The [try] block of [checkConnection]. *)
Definition try_block (reply : option Response) (s : State) : Completion State :=
  match axios_get reply with
  | Throw e => Throw e
  | Return data =>
      match property data "status" with
      | Throw e => Throw e
      | Return st =>
          if is_string st "ok" then
            match property data "database" with
            | Throw e => Throw e
            | Return d =>
                if is_string d "connected" then Return (setIsConnected true s)
                else Return s
            end
          else Return s
      end
  end.

(** [checkConnection()]: try, catch, finally. *)
Definition checkConnection (reply : option Response) (s : State) : State :=
  setIsLoading false
    (match try_block reply s with
     | Return s' => s'
     | Throw _ => setIsConnected false s
     end).

(** The text the component renders: the heading and the status paragraphs
    whose conditions hold. *)
Definition render (s : State) : list string :=
  (["Hello World"]
   ++ (if negb (isLoading s) && isConnected s then ["Connected"] else [])
   ++ (if negb (isLoading s) && negb (isConnected s) then ["Not Connected"] else [])
   ++ (if isLoading s then ["Checking connection..."] else []))%list.

End App.

(* ================================================================== *)
(** ** Vocabulary of the further statements *)
(* ================================================================== *)

(** The response of a validation failure. *)
Definition validation_error (issues : list ZodIssue) : Response :=
  {| status := 400;
     sent := Some (JObj [("success", JBool false); ("message", JStr "Validation error");
                         ("errors", JArr (map issue_json issues))]) |}.

(** The response of a successful registration. *)
Definition created (user : UserRow) : Response :=
  {| status := 201;
     sent := Some (JObj [("success", JBool true);
                         ("message", JStr "User registered successfully");
                         ("user", JObj [("id", JNum (User.id user));
                                        ("email", JStr (User.email user));
                                        ("created_at", JNum (User.created_at user))])]) |}.

(** The response of a successful login. *)
Definition logged_in (token : string) (user : UserRow) : Response :=
  {| status := 200;
     sent := Some (JObj [("success", JBool true);
                         ("message", JStr "Login successful");
                         ("token", JStr token);
                         ("user", JObj [("id", JNum (User.id user));
                                        ("email", JStr (User.email user))])]) |}.

(** The response of [GET /me] for an existing user. *)
Definition current_user (user : UserRow) : Response :=
  {| status := 200;
     sent := Some (JObj [("success", JBool true);
                         ("user", JObj [("id", JNum (User.id user));
                                        ("email", JStr (User.email user));
                                        ("name", opt_json (User.name user));
                                        ("created_at", JNum (User.created_at user))])]) |}.





(** Two tables that differ at most in the password hashes they store. *)
Definition same_public (r1 r2 : UserRow) : Prop :=
  User.id r1 = User.id r2 /\ User.email r1 = User.email r2
  /\ User.name r1 = User.name r2 /\ User.created_at r1 = User.created_at r2.

Definition with_db (st : St) (d : Db) : St :=
  {| db := d; res := res st; calls := calls st |}.

(** The rows [SELECT ... WHERE id = $1] returns for [req.userId]. *)
Definition rows_by_id (d : Db) (uid : option Z) : list UserRow :=
  match uid with
  | Some i => filter (fun r => User.id r =? i) (users d)
  | None => []
  end.






(** Unfolds the handler monad so that a handler runs on a given state. *)
Ltac run_handler :=
  unfold try_catch_M, call, bind, await, pool_query, record, bind; cbn.

(** Closes a branch of a handler that did not send the status [Hcreated]
    speaks of: either the catch block ran ([Hfail]), or another status was
    sent. *)
Ltac not_created Hfail Hcreated :=
  let H := fresh "Herr" in
  intros H;
  first [ exfalso; eapply Hfail; exact H
        | unfold res_status_json in H; injection H as H;
          rewrite <- H in Hcreated; discriminate Hcreated ].

(* ================================================================== *)
(** * Properties *)
(* ================================================================== *)

(** ** Strings and [split] *)

Lemma append_empty_r (s : string) : s ++ "" = s.
Proof.
  induction s as [|c s IH]; simpl; [reflexivity|].
  now rewrite IH.
Qed.

Lemma append_assoc (a b c : string) : (a ++ b) ++ c = a ++ (b ++ c).
Proof.
  induction a as [|x a IH]; simpl; [reflexivity|].
  now rewrite IH.
Qed.

Lemma length_append (a b : string) :
  String.length (a ++ b) = (String.length a + String.length b)%nat.
Proof.
  induction a as [|x a IH]; simpl; [reflexivity|].
  now rewrite IH.
Qed.

Lemma substring_prefix (a b : string) :
  substring 0 (String.length a) (a ++ b) = a.
Proof.
  induction a as [|x a IH]; simpl.
  - destruct b; reflexivity.
  - now rewrite IH.
Qed.

Lemma split_not_nil (sep : ascii) (s : string) : split sep s <> [].
Proof.
  destruct s as [|c s]; simpl.
  - discriminate.
  - destruct (Ascii.eqb c sep); [discriminate|].
    destruct (split sep s); discriminate.
Qed.

Lemma split_single (sep : ascii) (s : string) :
  has_char sep s = false -> split sep s = [s].
Proof.
  induction s as [|c s IH]; simpl; intros H.
  - reflexivity.
  - apply orb_false_iff in H as [Hc Hs].
    rewrite Hc, (IH Hs). reflexivity.
Qed.

Lemma split_app (sep : ascii) (a b : string) :
  has_char sep a = false ->
  split sep (a ++ String sep b) = a :: split sep b.
Proof.
  induction a as [|c a IH]; simpl; intros H.
  - rewrite Ascii.eqb_refl. reflexivity.
  - apply orb_false_iff in H as [Hc Ha].
    rewrite Hc, (IH Ha). reflexivity.
Qed.

Lemma split_segment_ends (t rest : string) :
  has_char " " t = false -> segment_ends rest ->
  exists more, split " " (t ++ rest) = t :: more.
Proof.
  intros Ht [-> | [r ->]].
  - exists []. rewrite append_empty_r. now apply split_single.
  - exists (split " " r). now apply split_app.
Qed.

Lemma truthy_append (a b : string) (c : ascii) : truthy (a ++ String c b) = true.
Proof. destruct a; reflexivity. Qed.

Lemma truthy_nonempty (s : string) : s <> "" -> truthy s = true.
Proof. destruct s; [congruence | reflexivity]. Qed.

(** ** The token the guard extracts *)

Lemma extracted_missing (h : option string) :
  NoTokenSegment h -> truthy_opt (extracted h) = false.
Proof.
  intros H. destruct H as [|h Hh|scheme rest Hs Hr]; unfold extracted; simpl.
  - reflexivity.
  - destruct (truthy h) eqn:E; simpl; [|exact E].
    now rewrite (split_single _ _ Hh).
  - rewrite truthy_append, (split_app _ _ _ Hs).
    destruct Hr as [-> | [r ->]]; reflexivity.
Qed.

Lemma extracted_token (h : option string) (t : string) :
  TokenSegment h t -> extracted h = Some t /\ truthy t = true.
Proof.
  intros H. destruct H as [scheme t rest Hs Ht Hne Hr]. split.
  - unfold extracted; simpl.
    rewrite truthy_append, (split_app _ _ _ Hs).
    destruct (split_segment_ends t rest Ht Hr) as [more ->]. reflexivity.
  - now apply truthy_nonempty.
Qed.

(** A header cannot both carry a token segment and lack one. *)
Lemma token_segment_exclusive (h : option string) (t : string) :
  TokenSegment h t -> NoTokenSegment h -> False.
Proof.
  intros Ht Hn.
  apply extracted_token in Ht as [Ht Htr]. apply extracted_missing in Hn.
  rewrite Ht in Hn. simpl in Hn. congruence.
Qed.

Lemma first_space (s : string) :
  has_char " " s = false
  \/ exists a b, s = a ++ String " " b /\ has_char " " a = false.
Proof.
  induction s as [|c s IH].
  - now left.
  - destruct (Ascii.eqb_spec c " ") as [-> | Hc].
    + right. now exists "", s.
    + apply Ascii.eqb_neq in Hc. destruct IH as [IH | (a & b & -> & Ha)].
      * left. simpl. now rewrite Hc, IH.
      * right. exists (String c a), b. simpl. now rewrite Hc, Ha.
Qed.

(** Every header either carries a token segment or lacks one: the two cases
    of the guard leave no header out. *)
Lemma header_cases (h : option string) :
  NoTokenSegment h \/ exists t, TokenSegment h t.
Proof.
  destruct h as [s|]; [|left; constructor].
  destruct (first_space s) as [Hs | (scheme & b & -> & Hscheme)].
  - left. now constructor.
  - destruct (first_space b) as [Hb | (t & r & -> & Ht)].
    + destruct b as [|c b'].
      * left. apply (header_empty_segment scheme ""); [assumption | now left].
      * right. exists (String c b').
        rewrite <- (append_empty_r (String c b')) at 1.
        apply (header_token scheme (String c b') "");
          [assumption | assumption | discriminate | now left].
    + destruct t as [|c t'].
      * left. apply (header_empty_segment scheme (String " " r));
          [assumption | right; now exists r].
      * right. exists (String c t').
        apply (header_token scheme (String c t') (String " " r));
          [assumption | assumption | discriminate | right; now exists r].
Qed.

(** ** The guard, case by case *)

Section Guard.

Variable jwt : JwtLib.
Variable w : World.

Lemma guard_rejects_missing (req : Request) (next : Request -> M unit) (st : St) :
  NoTokenSegment (authorization req) ->
  authenticateToken jwt w req next st =
  (Return tt, {| db := db st; res := respond 401 "Access token required";
                 calls := calls st |}).
Proof.
  intros H. unfold authenticateToken.
  change (js_and (authorization req) _) with (extracted (authorization req)).
  now rewrite (extracted_missing _ H).
Qed.

Lemma guard_verifies_segment (req : Request) (next : Request -> M unit) (st : St)
      (t : string) :
  TokenSegment (authorization req) t ->
  authenticateToken jwt w req next st =
  match verifyToken jwt w t with
  | Return None =>
      (Return tt, {| db := db st; res := respond 401 "Invalid or expired token";
                     calls := calls st ++ [CallVerifyToken t] |})
  | Return (Some d) =>
      next {| authorization := authorization req; body := body req;
              req_userId := Some (userId d) |}
           {| db := db st; res := res st;
              calls := calls st ++ [CallVerifyToken t; CallNext] |}
  | Throw e =>
      (Throw e, {| db := db st; res := res st;
                   calls := calls st ++ [CallVerifyToken t] |})
  end.
Proof.
  intros H. apply extracted_token in H as [Hx Ht].
  unfold authenticateToken.
  change (js_and (authorization req) _) with (extracted (authorization req)).
  rewrite Hx. cbn [truthy_opt string_value]. rewrite Ht. cbn [negb].
  run_handler.
  destruct (verifyToken jwt w t) as [[d|]|e]; simpl; try reflexivity.
  now rewrite <- app_assoc.
Qed.

Lemma verifyToken_returns (t : string) :
  verifyToken jwt w t =
  Return (match jwt_verify jwt w t (JWT_SECRET w) with
          | Return decoded => Some decoded
          | Throw _ => None
          end).
Proof.
  unfold verifyToken, try_catch.
  now destruct (jwt_verify jwt w t (JWT_SECRET w)).
Qed.

End Guard.

(** ** Token verification never throws *)

(** C3. For every input string [t], [verifyToken] returns either the identity
    that [jwt.verify] decoded or the single invalid result [null]; it never
    throws, and whatever [jwt.verify] throws (bad signature, malformed
    structure, expiry, or anything else) yields that same [null]. *)
Theorem verifyToken_never_throws :
  forall (jwt : JwtLib) (w : World) (t : string),
    (exists d, jwt_verify jwt w t (JWT_SECRET w) = Return d
               /\ verifyToken jwt w t = Return (Some d))
    \/ (exists e, jwt_verify jwt w t (JWT_SECRET w) = Throw e
                  /\ verifyToken jwt w t = Return None).
Proof.
  intros jwt w t. rewrite verifyToken_returns.
  destruct (jwt_verify jwt w t (JWT_SECRET w)) as [d|e].
  - left. exists d. split; reflexivity.
  - right. exists e. split; reflexivity.
Qed.

(** ** The Access Guard *)

(** C4. For every request whose Authorization header is absent or carries no
    token segment, the guard answers 401 with message "Access token required";
    nothing is added to the calls made, so [verifyToken] is not invoked (and
    neither is [next]). *)
Theorem authenticateToken_missing_token :
  forall (jwt : JwtLib) (w : World) (req : Request) (next : Request -> M unit) (st : St),
    NoTokenSegment (authorization req) ->
    authenticateToken jwt w req next st =
    (Return tt,
     {| db := db st;
        res := {| status := 401;
                  sent := Some (JObj [("success", JBool false);
                                      ("message", JStr "Access token required")]) |};
        calls := calls st |}).
Proof.
  intros jwt w req next st H.
  rewrite (guard_rejects_missing jwt w req next st H).
  reflexivity.
Qed.

Lemma authenticateToken_missing_token_witness :
  authenticateToken Reference.jwt Reference.world
    (Reference.request (Some "Bearer ") JNull None) (me Reference.world)
    (Reference.start Reference.empty_db) =
  (Return tt,
   {| db := Reference.empty_db;
      res := {| status := 401;
                sent := Some (JObj [("success", JBool false);
                                    ("message", JStr "Access token required")]) |};
      calls := [] |}).
Proof.
  apply (authenticateToken_missing_token Reference.jwt Reference.world
           (Reference.request (Some "Bearer ") JNull None)).
  exact (header_empty_segment "Bearer" "" eq_refl (or_introl eq_refl)).
Defined.

(** C5. For every request carrying a token that [verifyToken] reports invalid,
    the guard answers with message "Invalid or expired token", and with the
    same status 401 as it answers a request [req0] without a token: the two
    responses differ in the message field only. *)
Theorem authenticateToken_invalid_token :
  forall (jwt : JwtLib) (w : World) (req req0 : Request) (next : Request -> M unit)
         (st : St) (t : string),
    TokenSegment (authorization req) t ->
    verifyToken jwt w t = Return None ->
    NoTokenSegment (authorization req0) ->
    authenticateToken jwt w req next st =
      (Return tt,
       {| db := db st;
          res := {| status := 401;
                    sent := Some (JObj [("success", JBool false);
                                        ("message", JStr "Invalid or expired token")]) |};
          calls := calls st ++ [CallVerifyToken t] |})
    /\ res (snd (authenticateToken jwt w req0 next st)) =
       {| status := status (res (snd (authenticateToken jwt w req next st)));
          sent := Some (JObj [("success", JBool false);
                              ("message", JStr "Access token required")]) |}.
Proof.
  intros jwt w req req0 next st t Ht Hv H0.
  rewrite (guard_verifies_segment jwt w req next st t Ht), Hv.
  rewrite (guard_rejects_missing jwt w req0 next st H0).
  split; reflexivity.
Qed.

Lemma authenticateToken_invalid_token_witness :
  authenticateToken Reference.jwt Reference.world
    (Reference.request (Some "Bearer xyz") JNull None) (me Reference.world)
    (Reference.start Reference.empty_db) =
    (Return tt,
     {| db := Reference.empty_db;
        res := {| status := 401;
                  sent := Some (JObj [("success", JBool false);
                                      ("message", JStr "Invalid or expired token")]) |};
        calls := [CallVerifyToken "xyz"] |})
  /\ res (snd (authenticateToken Reference.jwt Reference.world
                 (Reference.request None JNull None) (me Reference.world)
                 (Reference.start Reference.empty_db))) =
     {| status := status (res (snd (authenticateToken Reference.jwt Reference.world
                 (Reference.request (Some "Bearer xyz") JNull None) (me Reference.world)
                 (Reference.start Reference.empty_db))));
        sent := Some (JObj [("success", JBool false);
                            ("message", JStr "Access token required")]) |}.
Proof.
  apply (authenticateToken_invalid_token Reference.jwt Reference.world
           (Reference.request (Some "Bearer xyz") JNull None)
           (Reference.request None JNull None) (me Reference.world)
           (Reference.start Reference.empty_db) "xyz").
  - apply (header_token "Bearer" "xyz" "" eq_refl eq_refl).
    + discriminate.
    + left. reflexivity.
  - reflexivity.
  - exact header_absent.
Defined.

(** C10 (as amended). The guard never checks that the scheme is literally
    "Bearer".  For every header whose second space-separated segment [t] is
    non-empty, [t] is passed to [verifyToken] and alone decides the outcome, so
    any scheme in front of [t] is handled exactly as "Bearer" is.  A header
    without a space, and a header whose second segment is empty, are rejected
    with "Access token required". *)
Theorem authenticateToken_scheme_not_checked :
  forall (jwt : JwtLib) (w : World) (req : Request) (st : St),
    (forall (scheme t rest : string) (next : Request -> M unit),
        has_char " " scheme = false -> has_char " " t = false -> t <> "" ->
        segment_ends rest ->
        exists decoded,
          verifyToken jwt w t = Return decoded
          /\ authenticateToken jwt w
               (with_authorization req (Some (scheme ++ " " ++ t ++ rest))) next st =
             match decoded with
             | None =>
                 (Return tt,
                  {| db := db st; res := respond 401 "Invalid or expired token";
                     calls := calls st ++ [CallVerifyToken t] |})
             | Some d =>
                 next {| authorization := Some (scheme ++ " " ++ t ++ rest);
                         body := body req; req_userId := Some (userId d) |}
                      {| db := db st; res := res st;
                         calls := calls st ++ [CallVerifyToken t; CallNext] |}
             end)
    /\ (forall (scheme t : string) (k : option Z -> M unit),
          has_char " " scheme = false -> has_char " " t = false -> t <> "" ->
          authenticateToken jwt w (with_authorization req (Some (scheme ++ " " ++ t)))
            (fun r => k (req_userId r)) st =
          authenticateToken jwt w (with_authorization req (Some ("Bearer " ++ t)))
            (fun r => k (req_userId r)) st)
    /\ (forall (h : string) (next : Request -> M unit),
          has_char " " h = false ->
          authenticateToken jwt w (with_authorization req (Some h)) next st =
          (Return tt, {| db := db st; res := respond 401 "Access token required";
                         calls := calls st |}))
    /\ (forall (scheme rest : string) (next : Request -> M unit),
          has_char " " scheme = false -> segment_ends rest ->
          authenticateToken jwt w (with_authorization req (Some (scheme ++ " " ++ rest)))
            next st =
          (Return tt, {| db := db st; res := respond 401 "Access token required";
                         calls := calls st |})).
Proof.
  intros jwt w req st. repeat split.
  - intros scheme t rest next Hs Ht Hne Hr.
    rewrite (guard_verifies_segment jwt w _ next st t)
      by (apply header_token; assumption).
    rewrite verifyToken_returns. eexists. split; [reflexivity|].
    destruct (jwt_verify jwt w t (JWT_SECRET w)); reflexivity.
  - intros scheme t k Hs Ht Hne.
    assert (Hany : forall s, has_char " " s = false ->
              TokenSegment (Some (s ++ " " ++ t)) t).
    { intros s Hs'. rewrite <- (append_empty_r t) at 1.
      apply header_token; try assumption. now left. }
    rewrite (guard_verifies_segment jwt w _ _ st t) by (apply (Hany scheme Hs)).
    rewrite (guard_verifies_segment jwt w _ _ st t) by (apply (Hany "Bearer" eq_refl)).
    destruct (verifyToken jwt w t) as [[d|]|e]; reflexivity.
  - intros h next Hh. apply guard_rejects_missing.
    now apply header_single_segment.
  - intros scheme rest next Hs Hr. apply guard_rejects_missing.
    now apply header_empty_segment.
Qed.

Lemma authenticateToken_scheme_not_checked_witness :
  authenticateToken Reference.jwt Reference.world
    (Reference.request (Some ("Basic " ++ Reference.token1)) JNull None)
    (fun r => me Reference.world (Reference.request None JNull (req_userId r)))
    (Reference.start Reference.registered_db) =
  authenticateToken Reference.jwt Reference.world
    (Reference.request (Some ("Bearer " ++ Reference.token1)) JNull None)
    (fun r => me Reference.world (Reference.request None JNull (req_userId r)))
    (Reference.start Reference.registered_db).
Proof.
  destruct (authenticateToken_scheme_not_checked Reference.jwt Reference.world
              (Reference.request None JNull None)
              (Reference.start Reference.registered_db))
    as (_ & Hscheme & _).
  apply (Hscheme "Basic" Reference.token1
           (fun uid => me Reference.world (Reference.request None JNull uid)));
    [reflexivity | reflexivity | discriminate].
Defined.

(** The scheme "Basic" in front of a valid token is let through. *)
Example basic_scheme_is_accepted :
  let outcome := get_me Reference.jwt Reference.world
                   (Reference.request (Some ("Basic " ++ Reference.token1)) JNull None)
                   (Reference.start Reference.registered_db) in
  status (res (snd outcome)) = 200
  /\ calls (snd outcome) =
     [CallVerifyToken Reference.token1; CallNext; CallQuery (SelectUserById (Some 1))].
Proof. vm_compute. split; reflexivity. Qed.

(** C10, counterexample: the header "Bearer " contains a space and its second
    segment is the empty string, yet nothing is passed to [verifyToken]: the
    request is rejected with "Access token required". *)
Lemma authenticateToken_empty_segment_counterexample :
  has_char " " "Bearer " = true
  /\ nth_error (split " " "Bearer ") 1 = Some ""
  /\ authenticateToken Reference.jwt Reference.world
       (Reference.request (Some "Bearer ") JNull None) (me Reference.world)
       (Reference.start Reference.empty_db) =
     (Return tt, {| db := Reference.empty_db;
                    res := respond 401 "Access token required";
                    calls := [] |}).
Proof. repeat split. Qed.

(** ** The bcrypt hash string *)

Lemma digit_value_digit (d : Z) :
  0 <= d <= 9 -> Bcrypt.digit_value (Bcrypt.digit d) = Some d.
Proof.
  intros Hd. unfold Bcrypt.digit_value, Bcrypt.digit.
  rewrite N_ascii_embedding by lia.
  replace (Z.of_N (48 + Z.to_N d)) with (48 + d) by lia.
  replace ((48 <=? 48 + d) && (48 + d <=? 57)) with true.
  - f_equal. lia.
  - symmetry. apply andb_true_iff. split; apply Z.leb_le; lia.
Qed.

Lemma digit_value_inv (c : ascii) (v : Z) :
  Bcrypt.digit_value c = Some v -> c = Bcrypt.digit v /\ 0 <= v <= 9.
Proof.
  unfold Bcrypt.digit_value, Bcrypt.digit.
  destruct ((48 <=? Z.of_N (N_of_ascii c)) && (Z.of_N (N_of_ascii c) <=? 57)) eqn:E;
    [|discriminate].
  apply andb_true_iff in E as [Hlo Hhi].
  apply Z.leb_le in Hlo. apply Z.leb_le in Hhi.
  intros [= <-]. split; [|lia].
  replace (48 + Z.to_N (Z.of_N (N_of_ascii c) - 48))%N with (N_of_ascii c) by lia.
  now rewrite ascii_N_embedding.
Qed.

Lemma two_digits_value (v1 v2 : Z) :
  0 <= v1 <= 9 -> 0 <= v2 <= 9 ->
  Bcrypt.two_digits (10 * v1 + v2) =
  String (Bcrypt.digit v1) (String (Bcrypt.digit v2) "").
Proof.
  intros H1 H2. unfold Bcrypt.two_digits.
  replace ((10 * v1 + v2) / 10) with v1
    by (apply (Z.div_unique _ _ v1 v2); lia).
  replace ((10 * v1 + v2) mod 10) with v2
    by (apply (Z.mod_unique _ _ v1 v2); lia).
  reflexivity.
Qed.

(** A string at least [n] long splits after its first [n] characters. *)
Lemma substring_split (n : nat) (s : string) :
  (n <= String.length s)%nat ->
  exists rest, s = substring 0 n s ++ rest /\ String.length (substring 0 n s) = n.
Proof.
  revert s. induction n as [|n IH]; intros s Hn.
  - exists s. destruct s; split; reflexivity.
  - destruct s as [|c s]; simpl in Hn; [lia|].
    destruct (IH s) as (rest & Hs & Hl); [lia|].
    exists rest. simpl. split; [now rewrite <- Hs | now rewrite Hl].
Qed.

(** [parse] reads back what [header] writes in front of a salt. *)
Lemma parse_header (minor : string) (cost : Z) (tail : string) :
  Bcrypt.is_minor minor -> 4 <= cost <= 31 -> (22 <= String.length tail)%nat ->
  Bcrypt.parse (Bcrypt.header minor cost ++ tail) =
  Some (minor, cost, substring 0 22 tail).
Proof.
  intros Hm Hc Ht.
  assert (H1 : 0 <= cost / 10 <= 9) by (split; [apply Z.div_pos | apply Z.div_le_upper_bound]; lia).
  assert (H2 : 0 <= cost mod 10 <= 9) by (pose proof (Z.mod_pos_bound cost 10); lia).
  assert (Hn : 10 * (cost / 10) + cost mod 10 = cost)
    by (symmetry; apply Z.div_mod; lia).
  assert (Hok : (4 <=? cost) && (cost <=? 31) && Nat.leb 22 (String.length tail) = true).
  { rewrite !andb_true_iff. repeat split;
      [apply Z.leb_le | apply Z.leb_le | apply Nat.leb_le]; lia. }
  unfold Bcrypt.header, Bcrypt.two_digits.
  destruct Hm as [-> | [-> | ->]]; cbn -[Z.mul Z.add Z.div Z.modulo Z.leb Nat.leb substring];
    rewrite (digit_value_digit _ H1), (digit_value_digit _ H2), Hn, Hok; reflexivity.
Qed.

(** Whatever [parse] accepts has the shape [header] writes. *)
Lemma parse_sound (h minor salt : string) (cost : Z) :
  Bcrypt.parse h = Some (minor, cost, salt) ->
  exists rest,
    h = Bcrypt.header minor cost ++ salt ++ rest
    /\ Bcrypt.is_minor minor /\ 4 <= cost <= 31 /\ String.length salt = 22%nat.
Proof.
  unfold Bcrypt.parse.
  destruct h as [|c0 [|c1 rest]]; try discriminate.
  destruct (Ascii.eqb c0 "$" && Ascii.eqb c1 "2") eqn:E01; [|discriminate].
  apply andb_true_iff in E01 as [E0 E1].
  apply Ascii.eqb_eq in E0, E1. subst c0 c1.
  destruct (Bcrypt.minor_of rest) as [m rest'] eqn:Em.
  destruct rest' as [|c2 [|d1 [|d2 [|c3 tail]]]]; try discriminate.
  destruct (Ascii.eqb c2 "$" && Ascii.eqb c3 "$") eqn:E23; [|discriminate].
  apply andb_true_iff in E23 as [E2 E3].
  apply Ascii.eqb_eq in E2, E3. subst c2 c3.
  destruct (Bcrypt.digit_value d1) as [v1|] eqn:D1; [|discriminate].
  destruct (Bcrypt.digit_value d2) as [v2|] eqn:D2; [|discriminate].
  remember (10 * v1 + v2) as n eqn:En.
  destruct ((4 <=? n) && (n <=? 31) && Nat.leb 22 (String.length tail)) eqn:Eok;
    [|discriminate].
  apply andb_true_iff in Eok as [Eok Elen].
  apply andb_true_iff in Eok as [Elo Ehi].
  apply Z.leb_le in Elo, Ehi. apply Nat.leb_le in Elen.
  intros H. injection H as Hminor Hcost Hsalt. subst minor cost salt.
  apply digit_value_inv in D1 as [-> B1]. apply digit_value_inv in D2 as [-> B2].
  destruct (substring_split 22 tail Elen) as (more & Htail & Hlen).
  exists more.
  assert (Hrest : rest = m ++ String "$" (String (Bcrypt.digit v1)
                           (String (Bcrypt.digit v2) (String "$" tail)))
                  /\ Bcrypt.is_minor m).
  { unfold Bcrypt.minor_of in Em. destruct rest as [|x r].
    - discriminate Em.
    - destruct (Ascii.eqb x "a" || Ascii.eqb x "b") eqn:Ex.
      + injection Em as Hm Hr. subst m r. split; [reflexivity|].
        apply orb_true_iff in Ex as [Ex | Ex]; apply Ascii.eqb_eq in Ex; subst x;
          unfold Bcrypt.is_minor; auto.
      + injection Em as Hm Hx Hr. subst m x r. split; [reflexivity | now left]. }
  destruct Hrest as [-> Hm].
  split; [| split; [assumption | split; [lia | assumption]]].
  unfold Bcrypt.header. rewrite En, (two_digits_value _ _ B1 B2).
  rewrite Htail at 1.
  destruct Hm as [-> | [-> | ->]]; reflexivity.
Qed.

Lemma parse_hashed (minor salt digest : string) (cost : Z) :
  Bcrypt.is_minor minor -> 4 <= cost <= 31 -> String.length salt = 22%nat ->
  Bcrypt.parse (Bcrypt.header minor cost ++ salt ++ digest) = Some (minor, cost, salt).
Proof.
  intros Hm Hc Hs.
  rewrite parse_header; try assumption.
  - now rewrite <- Hs, substring_prefix.
  - rewrite length_append. lia.
Qed.

Lemma wellformed_parse (h : string) :
  Bcrypt.WellFormed h <-> exists v, Bcrypt.parse h = Some v.
Proof.
  split.
  - intros (minor & cost & salt & rest & -> & Hm & Hc & Hs).
    exists (minor, cost, salt). now apply parse_hashed.
  - intros [[[minor cost] salt] Hp].
    destruct (parse_sound _ _ _ _ Hp) as (rest & Hh & Hm & Hc & Hs).
    now exists minor, cost, salt, rest.
Qed.

Section BcryptModel.

Variable crypt : Z -> string -> string -> string.

Lemma hashpw_shape (key s h : string) :
  Bcrypt.hashpw crypt key s = Some h ->
  exists minor cost salt,
    Bcrypt.parse s = Some (minor, cost, salt)
    /\ h = Bcrypt.header minor cost ++ salt ++ crypt cost salt key.
Proof.
  unfold Bcrypt.hashpw.
  destruct (Bcrypt.parse s) as [[[minor cost] salt]|]; [|discriminate].
  intros [= <-]. now exists minor, cost, salt.
Qed.

(** Hashing again with the salt a hash embeds reproduces the hash. *)
Lemma hashpw_fixpoint (key s h : string) :
  Bcrypt.hashpw crypt key s = Some h -> Bcrypt.hashpw crypt key h = Some h.
Proof.
  intros H. destruct (hashpw_shape _ _ _ H) as (minor & cost & salt & Hp & ->).
  destruct (parse_sound _ _ _ _ Hp) as (rest & _ & Hm & Hc & Hs).
  unfold Bcrypt.hashpw. now rewrite parse_hashed.
Qed.

Lemma gen_salt_parse (w : World) (rounds : Z) :
  4 <= rounds <= 31 ->
  Bcrypt.parse (Bcrypt.gen_salt w rounds) =
  Some ("b", rounds, Bcrypt.encode_base64 (randomBytes w 16)).
Proof.
  intros Hr. unfold Bcrypt.gen_salt.
  replace (if rounds <? 4 then 4 else if 31 <? rounds then 31 else rounds)
    with rounds.
  - rewrite <- (append_empty_r (Bcrypt.encode_base64 (randomBytes w 16))) at 1.
    apply parse_hashed; [right; right; reflexivity | assumption | reflexivity].
  - destruct (Z.ltb_spec rounds 4); [lia|].
    destruct (Z.ltb_spec 31 rounds); [lia | reflexivity].
Qed.

Lemma hash_shape (w : World) (data : string) (rounds : Z) :
  4 <= rounds <= 31 ->
  Bcrypt.hash crypt w data rounds =
  Return (Bcrypt.header "b" rounds
          ++ Bcrypt.encode_base64 (randomBytes w 16)
          ++ crypt rounds (Bcrypt.encode_base64 (randomBytes w 16)) data).
Proof.
  intros Hr. unfold Bcrypt.hash, Bcrypt.hashpw.
  now rewrite (gen_salt_parse w rounds Hr).
Qed.

Lemma compare_hash (w : World) (data h : string) (rounds : Z) :
  Bcrypt.hash crypt w data rounds = Return h ->
  Bcrypt.compare crypt data h = Return true.
Proof.
  unfold Bcrypt.hash, Bcrypt.compare.
  destruct (Bcrypt.hashpw crypt data (Bcrypt.gen_salt w rounds)) as [h'|] eqn:E;
    [|discriminate].
  intros [= <-]. rewrite (hashpw_fixpoint _ _ _ E).
  now rewrite String.eqb_refl.
Qed.

End BcryptModel.

(** ** The Credential Hasher *)

(** C1. For every password [p], verifying [p] against the hash produced for
    [p] succeeds: [hashPassword] returns a hash, and [verifyPassword] on that
    hash returns true. *)
Theorem verifyPassword_hashPassword :
  forall (crypt : Z -> string -> string -> string) (w : World) (p : string),
  exists h,
    hashPassword (Bcrypt.lib crypt) w p = Return h
    /\ verifyPassword (Bcrypt.lib crypt) p h = Return true.
Proof.
  intros crypt w p. unfold hashPassword, verifyPassword. simpl.
  eexists. split.
  - apply hash_shape. lia.
  - apply (compare_hash crypt w p _ 10). apply hash_shape. lia.
Qed.

(** C8. For every plaintext and every hash string, [verifyPassword] returns
    a boolean and never throws; on a malformed hash string, one that does not
    embed a version, a cost and a salt, it returns false. *)
Theorem verifyPassword_malformed_hash :
  forall (crypt : Z -> string -> string -> string) (p h : string),
    (exists b, verifyPassword (Bcrypt.lib crypt) p h = Return b)
    /\ (~ Bcrypt.WellFormed h ->
        verifyPassword (Bcrypt.lib crypt) p h = Return false).
Proof.
  intros crypt p h. unfold verifyPassword. simpl. unfold Bcrypt.compare. split.
  - eexists. reflexivity.
  - intros Hwf. unfold Bcrypt.hashpw.
    destruct (Bcrypt.parse h) as [v|] eqn:E; [|reflexivity].
    exfalso. apply Hwf. apply wellformed_parse. now exists v.
Qed.

Lemma verifyPassword_malformed_hash_witness :
  verifyPassword Reference.bcrypt "secret1" "not-a-bcrypt-hash" = Return false.
Proof.
  apply (proj2 (verifyPassword_malformed_hash Reference.crypt "secret1"
                  "not-a-bcrypt-hash")).
  intros Hwf. apply wellformed_parse in Hwf as [v Hv]. discriminate Hv.
Defined.

(** C9 (as amended). The hashing cost factor is not read from the
    environment: [hashPassword] passes the constant 10 to [bcrypt.hash]
    whatever the library, the hash it returns embeds cost 10, and replacing
    the environment of the process leaves the hash unchanged. *)
Theorem hashPassword_cost_is_constant :
  forall (crypt : Z -> string -> string -> string) (w : World) (p : string),
    (forall bcrypt : BcryptLib, hashPassword bcrypt w p = bcrypt_hash bcrypt w p 10)
    /\ exists h salt,
         hashPassword (Bcrypt.lib crypt) w p = Return h
         /\ Bcrypt.parse h = Some ("b", 10, salt)
         /\ forall e, hashPassword (Bcrypt.lib crypt) (with_env w e) p = Return h.
Proof.
  intros crypt w p. split; [reflexivity|].
  unfold hashPassword. simpl.
  assert (Hcost : 4 <= 10 <= 31) by lia.
  eexists. exists (Bcrypt.encode_base64 (randomBytes w 16)).
  split; [apply (hash_shape crypt w p 10 Hcost)|]. split.
  - apply parse_hashed; [right; right; reflexivity | exact Hcost | reflexivity].
  - intros e. apply (hash_shape crypt (with_env w e) p 10 Hcost).
Qed.

(** C9, counterexample: in a process whose every environment variable is set
    to "12", the hash that [hashPassword] produces still embeds cost 10, and
    it is the hash produced with nothing configured. *)
Lemma hashPassword_cost_counterexample :
  env Reference.configured "BCRYPT_SALT_ROUNDS" = Some "12"
  /\ hashPassword Reference.bcrypt Reference.configured "secret1" =
     Return "$2b$10$IgmoIgmoIgmoIgmoIgmoIesecret1IgmoIgmoIgmoIgmoIgmoIe"
  /\ Bcrypt.parse "$2b$10$IgmoIgmoIgmoIgmoIgmoIesecret1IgmoIgmoIgmoIgmoIgmoIe" =
     Some ("b", 10, "IgmoIgmoIgmoIgmoIgmoIe")
  /\ hashPassword Reference.bcrypt Reference.configured "secret1" =
     hashPassword Reference.bcrypt Reference.world "secret1".
Proof.
  split; [reflexivity|]. split; [vm_compute; reflexivity|].
  split; vm_compute; reflexivity.
Qed.

(** ** The Token Service *)

(** The fallback of [process.env.JWT_SECRET || '...'] keeps the secret non-empty. *)
Lemma JWT_SECRET_truthy (w : World) : truthy (JWT_SECRET w) = true.
Proof.
  unfold JWT_SECRET, js_or.
  destruct (env w "JWT_SECRET") as [s|]; [|reflexivity].
  destruct (truthy s) eqn:E; [exact E | reflexivity].
Qed.

Lemma get_put_pos (p : positive) (rest : string) :
  Reference.get_pos (Reference.put_pos p rest) = Some (p, rest).
Proof.
  induction p as [p IH|p IH|]; simpl.
  - now rewrite IH.
  - now rewrite IH.
  - reflexivity.
Qed.

Lemma get_put_Z (z : Z) (rest : string) :
  Reference.get_Z (Reference.put_Z z rest) = Some (z, rest).
Proof.
  destruct z as [|p|p]; simpl; [reflexivity| |]; now rewrite get_put_pos.
Qed.

Lemma reference_deserialize_serialize (t : Jwt.Signed) :
  Reference.deserialize (Reference.serialize t) = Some t.
Proof.
  unfold Reference.deserialize, Reference.serialize.
  rewrite !get_put_Z. now destruct t as [[u i e] sig].
Qed.

(** C2. For every user id [u], a token issued for [u] and verified at time
    [later], before its expiry has passed, decodes to an identity (not the
    invalid result) whose [userId] is [u].  The serialization of tokens is
    assumed to be readable back, and the configured lifetime to denote a time
    span. *)
Theorem verifyToken_generateToken :
  forall (ms : string -> option Z) (hmac : string -> Decoded -> string)
         (serialize : Jwt.Signed -> string) (deserialize : string -> option Jwt.Signed),
    (forall t, deserialize (serialize t) = Some t) ->
    forall (w : World) (u span later : Z),
      ms (JWT_EXPIRES_IN w) = Some span ->
      later / 1000 < now w / 1000 + span / 1000 ->
      exists token d,
        generateToken (Jwt.lib ms hmac serialize deserialize) w u = Return token
        /\ verifyToken (Jwt.lib ms hmac serialize deserialize) (at_time w later) token
           = Return (Some d)
        /\ userId d = u
        /\ exp d = now w / 1000 + span / 1000.
Proof.
  intros ms hmac serialize deserialize Hcodec w u span later Hspan Hlive.
  pose (claims := {| userId := u; iat := now w / 1000;
                     exp := now w / 1000 + span / 1000 |}).
  exists (serialize {| Jwt.payload := claims;
                       Jwt.signature := hmac (JWT_SECRET w) claims |}), claims.
  split; [|split; [|split; reflexivity]].
  - unfold generateToken. simpl. unfold Jwt.sign. simpl.
    now rewrite JWT_SECRET_truthy, Hspan.
  - rewrite verifyToken_returns. simpl. unfold Jwt.verify.
    rewrite Hcodec. simpl.
    change (JWT_SECRET (at_time w later)) with (JWT_SECRET w).
    rewrite JWT_SECRET_truthy, String.eqb_refl. simpl.
    destruct (Z.leb_spec (now w / 1000 + span / 1000) (later / 1000)); [lia|].
    reflexivity.
Qed.

Lemma verifyToken_generateToken_witness :
  exists token d,
    generateToken Reference.jwt Reference.world 1 = Return token
    /\ verifyToken Reference.jwt (at_time Reference.world 7000) token = Return (Some d)
    /\ userId d = 1
    /\ exp d = now Reference.world / 1000 + 604800000 / 1000.
Proof.
  apply (verifyToken_generateToken Reference.ms Reference.hmac
           Reference.serialize Reference.deserialize
           reference_deserialize_serialize Reference.world 1 604800000 7000).
  - reflexivity.
  - reflexivity.
Defined.

(** In the model of jsonwebtoken, each failure mode is a thrown error, which
    [verifyToken] turns into [null]. *)
Lemma verifyToken_failure_modes
      (ms : string -> option Z) (hmac : string -> Decoded -> string)
      (serialize : Jwt.Signed -> string) (deserialize : string -> option Jwt.Signed)
      (w : World) (token : string) :
  (deserialize token = None
   \/ (exists t, deserialize token = Some t
                 /\ Jwt.signature t <> hmac (JWT_SECRET w) (Jwt.payload t))
   \/ (exists t, deserialize token = Some t /\ exp (Jwt.payload t) <= now w / 1000)) ->
  verifyToken (Jwt.lib ms hmac serialize deserialize) w token = Return None.
Proof.
  intros H. rewrite verifyToken_returns. simpl. unfold Jwt.verify.
  rewrite JWT_SECRET_truthy. simpl.
  destruct H as [-> | [(t & -> & Hsig) | (t & -> & Hexp)]].
  - reflexivity.
  - apply String.eqb_neq in Hsig. now rewrite Hsig.
  - destruct (String.eqb (Jwt.signature t) (hmac (JWT_SECRET w) (Jwt.payload t)));
      [|reflexivity].
    simpl. destruct (Z.leb_spec (exp (Jwt.payload t)) (now w / 1000)); [reflexivity | lia].
Qed.

(** ** The register and login handlers *)

Lemma stored_none (d : Db) (e : string) :
  stored d e = None -> filter (by_email e) (users d) = [].
Proof.
  unfold stored. induction (users d) as [|r l IH]; simpl; [reflexivity|].
  destruct (by_email e r); [discriminate | exact IH].
Qed.

Lemma stored_some (d : Db) (e : string) (user : UserRow) :
  stored d e = Some user ->
  exists more, filter (by_email e) (users d) = user :: more.
Proof.
  unfold stored. induction (users d) as [|r l IH]; simpl; [discriminate|].
  destruct (by_email e r).
  - intros [= ->]. now eexists.
  - exact IH.
Qed.

Section Handlers.

Variable bcrypt : BcryptLib.
Variable jwt : JwtLib.
Variable zod_email : string -> bool.
Variable w : World.

Lemma login_unregistered (req : Request) (st : St) (e p : string) :
  LoginSchema_parse zod_email (body req) = Return (e, p) ->
  stored (db st) e = None ->
  login bcrypt jwt zod_email w req st =
  (Return tt, {| db := db st; res := respond 401 "Invalid email or password";
                 calls := calls st ++ [CallQuery (SelectCredentialsByEmail e)] |}).
Proof.
  intros Hparse Hnone.
  unfold login. run_handler.
  rewrite Hparse. cbn. now rewrite (stored_none _ _ Hnone).
Qed.

Lemma login_wrong_password (req : Request) (st : St) (e p : string) (user : UserRow) :
  LoginSchema_parse zod_email (body req) = Return (e, p) ->
  stored (db st) e = Some user ->
  verifyPassword bcrypt p (User.password_hash user) = Return false ->
  login bcrypt jwt zod_email w req st =
  (Return tt, {| db := db st; res := respond 401 "Invalid email or password";
                 calls := calls st ++ [CallQuery (SelectCredentialsByEmail e);
                                       CallVerifyPassword p (User.password_hash user)] |}).
Proof.
  intros Hparse Hsome Hwrong.
  destruct (stored_some _ _ _ Hsome) as [more Hrows].
  unfold login. run_handler.
  rewrite Hparse. cbn. rewrite Hrows. cbn. rewrite Hwrong. cbn.
  now rewrite <- app_assoc.
Qed.

End Handlers.

(** C6. A login request with an unregistered email and a login request with
    a registered email but a wrong password get the identical response:
    status 401 with body [{success:false, message:"Invalid email or
    password"}]. *)
Theorem login_failures_indistinguishable :
  forall (bcrypt : BcryptLib) (jwt : JwtLib) (zod_email : string -> bool) (w : World)
         (unknown wrong : Request) (st : St) (e1 p1 e2 p2 : string) (user : UserRow),
    LoginSchema_parse zod_email (body unknown) = Return (e1, p1) ->
    stored (db st) e1 = None ->
    LoginSchema_parse zod_email (body wrong) = Return (e2, p2) ->
    stored (db st) e2 = Some user ->
    verifyPassword bcrypt p2 (User.password_hash user) = Return false ->
    res (snd (login bcrypt jwt zod_email w unknown st)) =
      {| status := 401;
         sent := Some (JObj [("success", JBool false);
                             ("message", JStr "Invalid email or password")]) |}
    /\ res (snd (login bcrypt jwt zod_email w wrong st)) =
       res (snd (login bcrypt jwt zod_email w unknown st)).
Proof.
  intros bcrypt jwt zod_email w unknown wrong st e1 p1 e2 p2 user
         Hp1 Hnone Hp2 Hsome Hwrong.
  rewrite (login_unregistered bcrypt jwt zod_email w unknown st e1 p1 Hp1 Hnone).
  rewrite (login_wrong_password bcrypt jwt zod_email w wrong st e2 p2 user
             Hp2 Hsome Hwrong).
  split; reflexivity.
Qed.

(** C7. For every registration request whose email already has a stored
    credential, the register handler answers 400 "Email already exists"; the
    only call it makes is the lookup by email, so the password hasher is not
    called and no row is inserted, and the stored state is unchanged. *)
Theorem register_existing_email :
  forall (bcrypt : BcryptLib) (zod_email : string -> bool) (w : World)
         (req : Request) (st : St) (e p : string) (n : option string) (user : UserRow),
    RegisterSchema_parse zod_email (body req) = Return (e, p, n) ->
    stored (db st) e = Some user ->
    register bcrypt zod_email w req st =
    (Return tt,
     {| db := db st;
        res := {| status := 400;
                  sent := Some (JObj [("success", JBool false);
                                      ("message", JStr "Email already exists")]) |};
        calls := calls st ++ [CallQuery (SelectIdByEmail e)] |}).
Proof.
  intros bcrypt zod_email w req st e p n user Hparse Hsome.
  destruct (stored_some _ _ _ Hsome) as [more Hrows].
  unfold register. run_handler.
  rewrite Hparse. cbn. rewrite Hrows. reflexivity.
Qed.

Lemma login_failures_indistinguishable_witness :
  res (snd (login Reference.bcrypt Reference.jwt Reference.zod_email Reference.world
              (Reference.request None (Reference.credentials "c@b.com" "secret1") None)
              (Reference.start Reference.registered_db))) =
    {| status := 401;
       sent := Some (JObj [("success", JBool false);
                           ("message", JStr "Invalid email or password")]) |}
  /\ res (snd (login Reference.bcrypt Reference.jwt Reference.zod_email Reference.world
                 (Reference.request None (Reference.credentials "a@b.com" "wrong") None)
                 (Reference.start Reference.registered_db))) =
     res (snd (login Reference.bcrypt Reference.jwt Reference.zod_email Reference.world
                 (Reference.request None (Reference.credentials "c@b.com" "secret1") None)
                 (Reference.start Reference.registered_db))).
Proof.
  apply (login_failures_indistinguishable Reference.bcrypt Reference.jwt
           Reference.zod_email Reference.world
           (Reference.request None (Reference.credentials "c@b.com" "secret1") None)
           (Reference.request None (Reference.credentials "a@b.com" "wrong") None)
           (Reference.start Reference.registered_db)
           "c@b.com" "secret1" "a@b.com" "wrong"
           {| User.id := 1; User.email := "a@b.com";
              User.password_hash :=
                "$2b$10$IgmoIgmoIgmoIgmoIgmoIesecret1IgmoIgmoIgmoIgmoIgmoIe";
              User.name := None; User.created_at := 7000 |}).
  - reflexivity.
  - reflexivity.
  - reflexivity.
  - reflexivity.
  - vm_compute. reflexivity.
Defined.

Lemma register_existing_email_witness :
  register Reference.bcrypt Reference.zod_email Reference.world
    (Reference.request None (Reference.credentials "a@b.com" "secret2") None)
    (Reference.start Reference.registered_db) =
  (Return tt,
   {| db := Reference.registered_db;
      res := {| status := 400;
                sent := Some (JObj [("success", JBool false);
                                    ("message", JStr "Email already exists")]) |};
      calls := [CallQuery (SelectIdByEmail "a@b.com")] |}).
Proof.
  apply (register_existing_email Reference.bcrypt Reference.zod_email Reference.world
           (Reference.request None (Reference.credentials "a@b.com" "secret2") None)
           (Reference.start Reference.registered_db) "a@b.com" "secret2" None
           {| User.id := 1; User.email := "a@b.com";
              User.password_hash :=
                "$2b$10$IgmoIgmoIgmoIgmoIgmoIesecret1IgmoIgmoIgmoIgmoIgmoIe";
              User.name := None; User.created_at := 7000 |}).
  - reflexivity.
  - reflexivity.
Defined.

(** ** The scenario of the specification, run on the reference instance *)

Example register_then_register_again :
  let first := register Reference.bcrypt Reference.zod_email Reference.world
                 (Reference.request None (Reference.credentials "a@b.com" "secret1") None)
                 (Reference.start Reference.empty_db) in
  let second := register Reference.bcrypt Reference.zod_email Reference.world
                  (Reference.request None (Reference.credentials "a@b.com" "secret1") None)
                  (Reference.start (db (snd first))) in
  status (res (snd first)) = 201
  /\ db (snd first) = Reference.registered_db
  /\ status (res (snd second)) = 400
  /\ db (snd second) = Reference.registered_db.
Proof. vm_compute. repeat split. Qed.

Example login_then_me :
  let logged := login Reference.bcrypt Reference.jwt Reference.zod_email Reference.world
                  (Reference.request None (Reference.credentials "a@b.com" "secret1") None)
                  (Reference.start Reference.registered_db) in
  let current := get_me Reference.jwt Reference.world
                   (Reference.request (Some ("Bearer " ++ Reference.token1)) JNull None)
                   (Reference.start Reference.registered_db) in
  sent (res (snd logged)) =
    Some (JObj [("success", JBool true); ("message", JStr "Login successful");
                ("token", JStr Reference.token1);
                ("user", JObj [("id", JNum 1); ("email", JStr "a@b.com")])])
  /\ res (snd current) =
     {| status := 200;
        sent := Some (JObj [("success", JBool true);
                            ("user", JObj [("id", JNum 1); ("email", JStr "a@b.com");
                                           ("name", JNull);
                                           ("created_at", JNum 7000)])]) |}
  /\ calls (snd current) =
     [CallVerifyToken Reference.token1; CallNext; CallQuery (SelectUserById (Some 1))].
Proof. vm_compute. repeat split. Qed.

(** Validation comes first: a request that fails [RegisterSchema] is answered
    before any lookup, whatever its email. *)
Example register_short_password_on_existing_email :
  res (snd (register Reference.bcrypt Reference.zod_email Reference.world
              (Reference.request None (Reference.credentials "a@b.com" "abc") None)
              (Reference.start Reference.registered_db))) =
  {| status := 400;
     sent := Some (JObj [("success", JBool false); ("message", JStr "Validation error");
                         ("errors",
                          JArr [JObj [("code", JStr "too_small"); ("minimum", JNum 6);
                                      ("message",
                                       JStr "Password must be at least 6 characters");
                                      ("path", JArr [JStr "password"])]])]) |}.
Proof. vm_compute. reflexivity. Qed.

(** ** Registering the same email twice *)

Lemma stored_app_new (l : list UserRow) (e : string) (row : UserRow) :
  filter (by_email e) l = [] -> User.email row = e ->
  filter (by_email e) (l ++ [row]) = [row].
Proof.
  intros Hnone Hrow. rewrite filter_app, Hnone. simpl.
  unfold by_email. now rewrite Hrow, String.eqb_refl.
Qed.

Lemma on_error_status (label : string) (error : JsError) (st : St) :
  status (res (snd (on_error label error st))) = 400
  \/ status (res (snd (on_error label error st))) = 500.
Proof.
  destruct error; [left | right | right | right | right]; reflexivity.
Qed.

(** X19. When a registration is answered 201, the same request sent again is
    answered 400 "Email already exists", and exactly one row holds the email
    afterwards. *)
Theorem register_twice :
  forall (bcrypt : BcryptLib) (zod_email : string -> bool) (w w' : World)
         (req : Request) (st st1 : St),
    register bcrypt zod_email w req st = (Return tt, st1) ->
    status (res st1) = 201 ->
    exists e,
      length (filter (by_email e) (users (db st1))) = 1%nat
      /\ register bcrypt zod_email w' req st1 =
         (Return tt, {| db := db st1; res := respond 400 "Email already exists";
                        calls := calls st1 ++ [CallQuery (SelectIdByEmail e)] |}).
Proof.
  intros bcrypt zod_email w w' req st st1 Hrun Hcreated.
  assert (Hfail : forall label error s,
             on_error label error s = (Return tt, st1) -> False).
  { intros label error s Herr.
    pose proof (on_error_status label error s) as Hs.
    rewrite Herr in Hs. simpl in Hs. lia. }
  unfold register in Hrun. revert Hrun. run_handler.
  destruct (RegisterSchema_parse zod_email (body req)) as [[[e p] n]|err] eqn:Hparse;
    cbn; [|not_created Hfail Hcreated].
  destruct (filter (by_email e) (users (db st))) as [|existing more] eqn:Hrows;
    cbn; [|not_created Hfail Hcreated].
  destruct (hashPassword bcrypt w p) as [h|err] eqn:Hhash;
    cbn; [|not_created Hfail Hcreated].
  destruct (existsb (by_email e) (users (db st))); cbn; [not_created Hfail Hcreated|].
  destruct (negb (fits 255 e && fits 255 h)); cbn; [not_created Hfail Hcreated|].
  destruct (negb _); cbn; [not_created Hfail Hcreated|].
  intros [= <-]. exists e. cbn.
  assert (Hnew : filter (by_email e)
                   (users (db st) ++
                    [{| User.id := next_id (db st); User.email := e;
                        User.password_hash := h;
                        User.name := match n with
                                     | Some n0 => if truthy n0 then Some n0 else None
                                     | None => None
                                     end;
                        User.created_at := now w |}]) = _)
    by (apply stored_app_new; [exact Hrows | reflexivity]).
  split.
  - now rewrite Hnew.
  - unfold register. run_handler. rewrite Hparse. cbn. rewrite Hnew. reflexivity.
Qed.

(** ** The protected route *)

(** With a token that verifies, [GET /me] answers 200 with the public fields
    of the user the token names, when that user exists. *)
Lemma get_me_authenticated (jwt : JwtLib) (w : World) (req : Request) (st : St)
      (t : string) (d : Decoded) (user : UserRow) (more : list UserRow) :
  TokenSegment (authorization req) t ->
  verifyToken jwt w t = Return (Some d) ->
  filter (fun r => User.id r =? userId d) (users (db st)) = user :: more ->
  res (snd (get_me jwt w req st)) =
  {| status := 200;
     sent := Some (JObj [("success", JBool true);
                         ("user", JObj [("id", JNum (User.id user));
                                        ("email", JStr (User.email user));
                                        ("name", opt_json (User.name user));
                                        ("created_at", JNum (User.created_at user))])]) |}.
Proof.
  intros Ht Hv Hrows. unfold get_me.
  rewrite (guard_verifies_segment jwt w req (me w) st t Ht), Hv.
  unfold me. run_handler. now rewrite Hrows.
Qed.

(* ================================================================== *)
(** * Further properties of the routes *)
(* ================================================================== *)

(** ** What the schemas throw *)




Lemma filter_cons_stored (d : Db) (e : string) (user : UserRow) (more : list UserRow) :
  filter (by_email e) (users d) = user :: more -> stored d e = Some user.
Proof.
  unfold stored. induction (users d) as [|r l IH]; simpl; [discriminate|].
  destruct (by_email e r); [now intros [= -> _] | exact IH].
Qed.


(** The catch block answers, with 400 for a [ZodError] and 500 otherwise,
    and leaves the table alone. *)
Lemma on_error_cases (label : string) (error : JsError) (st : St) :
  exists st',
    on_error label error st = (Return tt, st')
    /\ db st' = db st
    /\ ((exists issues, res st' = validation_error issues)
        \/ res st' = respond 500 "Internal server error").
Proof.
  destruct error as [issues| | | |]; eexists; (split; [reflexivity|]);
    (split; [reflexivity|]).
  - left. now exists issues.
  - now right.
  - now right.
  - now right.
  - now right.
Qed.

(** ** The outcomes of [POST /register] *)

Section RegisterOutcomes.

Variable bcrypt : BcryptLib.
Variable zod_email : string -> bool.
Variable w : World.


End RegisterOutcomes.















Lemma RegisterSchema_LoginSchema (zod_email : string -> bool) (b : Json)
      (e p : string) (n : option string) :
  RegisterSchema_parse zod_email b = Return (e, p, n) ->
  LoginSchema_parse zod_email b = Return (e, p).
Proof.
  unfold RegisterSchema_parse, LoginSchema_parse.
  destruct b as [| | | | |fields]; try discriminate.
  destruct (zod_string "email" (lookup "email" fields) (email_check zod_email))
    as [|i l]; [|discriminate].
  cbn [app].
  destruct (lookup "password" fields) as [[| | |pw| |]|]; try discriminate.
  cbn [zod_string]. unfold min_check.
  destruct (Nat.leb_spec 6 (String.length pw)) as [Hlen|Hlen]; [|discriminate].
  destruct (Nat.leb_spec 1 (String.length pw)); [|lia].
  cbn [app].
  destruct (lookup "name" fields) as [[| | |nm| |]|]; cbn; try discriminate;
    intros Hret; injection Hret as <- <- _; reflexivity.
Qed.

(** X6. Credentials that pass the registration schema pass the login schema,
    with the same email and password: whoever can register can submit the
    same body to log in. *)
Theorem register_accepted_login_accepted :
  forall (zod_email : string -> bool) (b : Json) (e p : string) (n : option string),
    RegisterSchema_parse zod_email b = Return (e, p, n) ->
    LoginSchema_parse zod_email b = Return (e, p).
Proof.
  intros zod_email b e p n Haccepted.
  exact (RegisterSchema_LoginSchema zod_email b e p n Haccepted).
Qed.

Lemma register_accepted_login_accepted_witness :
  LoginSchema_parse Reference.zod_email (Reference.credentials "a@b.com" "secret1")
  = Return ("a@b.com", "secret1").
Proof.
  apply (register_accepted_login_accepted Reference.zod_email
           (Reference.credentials "a@b.com" "secret1") "a@b.com" "secret1" None).
  reflexivity.
Defined.

(** ** The outcomes of [POST /login] *)

Section LoginOutcomes.

Variable bcrypt : BcryptLib.
Variable jwt : JwtLib.
Variable zod_email : string -> bool.
Variable w : World.

Lemma login_cases (req : Request) (st : St) :
  exists st',
    login bcrypt jwt zod_email w req st = (Return tt, st')
    /\ db st' = db st
    /\ ((exists issues, res st' = validation_error issues)
        \/ res st' = respond 401 "Invalid email or password"
        \/ res st' = respond 500 "Internal server error"
        \/ (exists e p user token,
              LoginSchema_parse zod_email (body req) = Return (e, p)
              /\ stored (db st) e = Some user
              /\ verifyPassword bcrypt p (User.password_hash user) = Return true
              /\ generateToken jwt w (User.id user) = Return token
              /\ res st' = logged_in token user)).
Proof.
  assert (Hcatch : forall error s,
             db s = db st ->
             exists st',
               on_error "Login error:" error s = (Return tt, st')
               /\ db st' = db st
               /\ ((exists issues, res st' = validation_error issues)
                   \/ res st' = respond 401 "Invalid email or password"
                   \/ res st' = respond 500 "Internal server error"
                   \/ (exists e p user token,
                         LoginSchema_parse zod_email (body req) = Return (e, p)
                         /\ stored (db st) e = Some user
                         /\ verifyPassword bcrypt p (User.password_hash user)
                            = Return true
                         /\ generateToken jwt w (User.id user) = Return token
                         /\ res st' = logged_in token user))).
  { intros error s Hs.
    destruct (on_error_cases "Login error:" error s) as (st' & Hrun & Hdb & Hres).
    exists st'. split; [exact Hrun|]. split; [congruence|].
    destruct Hres as [Hres | Hres]; [left | right; right; left]; exact Hres. }
  unfold login. run_handler.
  destruct (LoginSchema_parse zod_email (body req)) as [[e p]|err] eqn:Hparse; cbn.
  2:{ destruct (Hcatch err st eq_refl) as (st' & Hrun & Hpost).
      exists st'. split; [exact Hrun | exact Hpost]. }
  destruct (filter (by_email e) (users (db st))) as [|user more] eqn:Hrows; cbn.
  { eexists. split; [reflexivity|]. split; [reflexivity|]. right. left. reflexivity. }
  destruct (verifyPassword bcrypt p (User.password_hash user)) as [[|]|err] eqn:Hpw; cbn.
  - destruct (generateToken jwt w (User.id user)) as [token|err] eqn:Htok; cbn.
    + eexists. split; [reflexivity|]. split; [reflexivity|].
      right. right. right. exists e, p, user, token.
      split; [reflexivity|]. split; [now apply (filter_cons_stored _ _ _ more)|].
      split; [exact Hpw|]. split; [exact Htok | reflexivity].
    + destruct (Hcatch err (Build_St (db st) (res st)
                  (((calls st ++ [CallQuery (SelectCredentialsByEmail e)])
                    ++ [CallVerifyPassword p (User.password_hash user)])
                   ++ [CallGenerateToken (User.id user)])) eq_refl)
        as (st' & Hrun & Hpost).
      exists st'. split; [exact Hrun | exact Hpost].
  - eexists. split; [reflexivity|]. split; [reflexivity|]. right. left. reflexivity.
  - destruct (Hcatch err (Build_St (db st) (res st)
                ((calls st ++ [CallQuery (SelectCredentialsByEmail e)])
                 ++ [CallVerifyPassword p (User.password_hash user)])) eq_refl)
      as (st' & Hrun & Hpost).
    exists st'. split; [exact Hrun | exact Hpost].
Qed.

End LoginOutcomes.


(** X8. [POST /login] answers 200 only when the body passed [LoginSchema],
    the email has a stored row, [verifyPassword] accepted the password against
    that row's hash, and [generateToken] issued a token for that row's id; the
    body then carries that token with the row's id and email. *)
Theorem login_success_requires_match :
  forall (bcrypt : BcryptLib) (jwt : JwtLib) (zod_email : string -> bool) (w : World)
         (req : Request) (st : St),
    status (res (snd (login bcrypt jwt zod_email w req st))) = 200 ->
    exists e p user token,
      LoginSchema_parse zod_email (body req) = Return (e, p)
      /\ stored (db st) e = Some user
      /\ verifyPassword bcrypt p (User.password_hash user) = Return true
      /\ generateToken jwt w (User.id user) = Return token
      /\ sent (res (snd (login bcrypt jwt zod_email w req st))) =
         Some (JObj [("success", JBool true);
                     ("message", JStr "Login successful");
                     ("token", JStr token);
                     ("user", JObj [("id", JNum (User.id user));
                                    ("email", JStr (User.email user))])]).
Proof.
  intros bcrypt jwt zod_email w req st.
  destruct (login_cases bcrypt jwt zod_email w req st) as (st' & -> & _ & Hcases).
  simpl. intros Hok.
  destruct Hcases as [[issues Hres] | [Hres | [Hres | Hres]]];
    try (rewrite Hres in Hok; discriminate Hok).
  destruct Hres as (e & p & user & token & Hp & Hs & Hv & Ht & Hres).
  exists e, p, user, token. rewrite Hres. repeat split; assumption.
Qed.

Lemma login_success_requires_match_witness :
  exists e p user token,
    LoginSchema_parse Reference.zod_email (Reference.credentials "a@b.com" "secret1")
    = Return (e, p)
    /\ stored Reference.registered_db e = Some user
    /\ verifyPassword Reference.bcrypt p (User.password_hash user) = Return true
    /\ generateToken Reference.jwt Reference.world (User.id user) = Return token
    /\ sent (res (snd (login Reference.bcrypt Reference.jwt Reference.zod_email
                         Reference.world
                         (Reference.request None
                            (Reference.credentials "a@b.com" "secret1") None)
                         (Reference.start Reference.registered_db)))) =
       Some (JObj [("success", JBool true);
                   ("message", JStr "Login successful");
                   ("token", JStr token);
                   ("user", JObj [("id", JNum (User.id user));
                                  ("email", JStr (User.email user))])]).
Proof.
  apply (login_success_requires_match Reference.bcrypt Reference.jwt
           Reference.zod_email Reference.world
           (Reference.request None (Reference.credentials "a@b.com" "secret1") None)
           (Reference.start Reference.registered_db)).
  vm_compute. reflexivity.
Defined.



(** ** The guard and [GET /me] *)

Lemma me_run (w : World) (req : Request) (st : St) :
  me w req st =
  (Return tt,
   {| db := db st;
      res := match rows_by_id (db st) (req_userId req) with
             | [] => respond 404 "User not found"
             | user :: _ => current_user user
             end;
      calls := calls st ++ [CallQuery (SelectUserById (req_userId req))] |}).
Proof.
  unfold me. run_handler.
  destruct (req_userId req) as [i|]; cbn; [|reflexivity].
  destruct (filter (fun r => User.id r =? i) (users (db st))); reflexivity.
Qed.

(** X10. The guard has three outcomes and no other.  Without a token segment
    it answers 401 "Access token required"; with a token segment that
    [verifyToken] does not decode it answers 401 "Invalid or expired token";
    and only with a token segment that [verifyToken] decodes does it call
    [next], on the request with [req.userId] set to the decoded user id and
    with no response sent. *)
Theorem authenticateToken_outcomes :
  forall (jwt : JwtLib) (w : World) (req : Request) (next : Request -> M unit) (st : St),
    (NoTokenSegment (authorization req)
     /\ authenticateToken jwt w req next st =
        (Return tt, {| db := db st; res := respond 401 "Access token required";
                       calls := calls st |}))
    \/ (exists t,
          TokenSegment (authorization req) t
          /\ verifyToken jwt w t = Return None
          /\ authenticateToken jwt w req next st =
             (Return tt, {| db := db st; res := respond 401 "Invalid or expired token";
                            calls := calls st ++ [CallVerifyToken t] |}))
    \/ (exists t d,
          TokenSegment (authorization req) t
          /\ verifyToken jwt w t = Return (Some d)
          /\ authenticateToken jwt w req next st =
             next {| authorization := authorization req; body := body req;
                     req_userId := Some (userId d) |}
                  {| db := db st; res := res st;
                     calls := calls st ++ [CallVerifyToken t; CallNext] |}).
Proof.
  intros jwt w req next st.
  destruct (header_cases (authorization req)) as [Hnone | [t Ht]].
  - left. split; [exact Hnone | now apply guard_rejects_missing].
  - right. pose proof (guard_verifies_segment jwt w req next st t Ht) as Hrun.
    rewrite verifyToken_returns in Hrun.
    destruct (jwt_verify jwt w t (JWT_SECRET w)) as [d|e] eqn:Hv.
    + right. exists t, d. rewrite verifyToken_returns, Hv. now repeat split.
    + left. exists t. rewrite verifyToken_returns, Hv. now repeat split.
Qed.

Section MeOutcomes.

Variable jwt : JwtLib.
Variable w : World.

Lemma get_me_cases (req : Request) (st : St) :
  exists st',
    get_me jwt w req st = (Return tt, st')
    /\ db st' = db st
    /\ (res st' = respond 401 "Access token required"
        \/ res st' = respond 401 "Invalid or expired token"
        \/ (exists t d,
              TokenSegment (authorization req) t
              /\ verifyToken jwt w t = Return (Some d)
              /\ res st' = match rows_by_id (db st) (Some (userId d)) with
                           | [] => respond 404 "User not found"
                           | user :: _ => current_user user
                           end)).
Proof.
  unfold get_me.
  destruct (header_cases (authorization req)) as [Hnone | [t Ht]].
  - rewrite (guard_rejects_missing jwt w req (me w) st Hnone).
    eexists. split; [reflexivity|]. split; [reflexivity|]. now left.
  - rewrite (guard_verifies_segment jwt w req (me w) st t Ht).
    rewrite verifyToken_returns.
    destruct (jwt_verify jwt w t (JWT_SECRET w)) as [d|e] eqn:Hv.
    + rewrite me_run. eexists. split; [reflexivity|]. split; [reflexivity|].
      right. right. exists t, d.
      split; [exact Ht|]. split; [|reflexivity].
      now rewrite verifyToken_returns, Hv.
    + eexists. split; [reflexivity|]. split; [reflexivity|]. right. now left.
Qed.

End MeOutcomes.


(** X12. [POST /login] and [GET /me] only read: whatever the request and
    whatever the packages do, the table after them is the table before. *)
Theorem login_and_get_me_never_write :
  forall (bcrypt : BcryptLib) (jwt : JwtLib) (zod_email : string -> bool) (w : World)
         (req : Request) (st : St),
    db (snd (login bcrypt jwt zod_email w req st)) = db st
    /\ db (snd (get_me jwt w req st)) = db st.
Proof.
  intros bcrypt jwt zod_email w req st. split.
  - destruct (login_cases bcrypt jwt zod_email w req st) as (st' & -> & Hdb & _).
    exact Hdb.
  - destruct (get_me_cases jwt w req st) as (st' & -> & Hdb & _).
    exact Hdb.
Qed.



(** ** Stored hashes stay inside *)

Lemma filter_same_public (i : Z) (l1 l2 : list UserRow) :
  Forall2 same_public l1 l2 ->
  Forall2 same_public (filter (fun r => User.id r =? i) l1)
                      (filter (fun r => User.id r =? i) l2).
Proof.
  induction 1 as [|r1 r2 l1 l2 Hr Hl IH]; simpl; [constructor|].
  destruct Hr as (Hid & Hrest). rewrite <- Hid.
  destruct (User.id r1 =? i); [constructor; [split|]; assumption | exact IH].
Qed.

Lemma me_response_same_public (d1 d2 : Db) (uid : option Z) :
  Forall2 same_public (users d1) (users d2) ->
  match rows_by_id d1 uid with
  | [] => respond 404 "User not found"
  | user :: _ => current_user user
  end =
  match rows_by_id d2 uid with
  | [] => respond 404 "User not found"
  | user :: _ => current_user user
  end.
Proof.
  intros Hsame. destruct uid as [i|]; simpl; [|reflexivity].
  destruct (filter_same_public i _ _ Hsame) as [|r1 r2 m1 m2 (Hid & He & Hn & Hc) _];
    [reflexivity|].
  unfold current_user. now rewrite Hid, He, Hn, Hc.
Qed.

(** X14. The answer of [GET /me] does not depend on the password hashes in
    the table: two tables whose rows agree on id, email, name and creation
    time give the same response to the same request. *)
Theorem get_me_independent_of_hashes :
  forall (jwt : JwtLib) (w : World) (req : Request) (st : St) (d1 d2 : Db),
    Forall2 same_public (users d1) (users d2) ->
    res (snd (get_me jwt w req (with_db st d1))) =
    res (snd (get_me jwt w req (with_db st d2))).
Proof.
  intros jwt w req st d1 d2 Hsame. unfold get_me.
  destruct (header_cases (authorization req)) as [Hnone | [t Ht]].
  - now rewrite !(guard_rejects_missing jwt w req (me w) _ Hnone).
  - rewrite !(guard_verifies_segment jwt w req (me w) _ t Ht).
    destruct (verifyToken jwt w t) as [[d|]|e]; try reflexivity.
    rewrite !me_run. simpl.
    exact (me_response_same_public d1 d2 (Some (userId d)) Hsame).
Qed.

Lemma get_me_independent_of_hashes_witness :
  res (snd (get_me Reference.jwt Reference.world
              (Reference.request (Some ("Bearer " ++ Reference.token1)) JNull None)
              (with_db (Reference.start Reference.empty_db) Reference.registered_db))) =
  res (snd (get_me Reference.jwt Reference.world
              (Reference.request (Some ("Bearer " ++ Reference.token1)) JNull None)
              (with_db (Reference.start Reference.empty_db)
                 {| users := [{| User.id := 1; User.email := "a@b.com";
                                 User.password_hash := "another hash";
                                 User.name := None; User.created_at := 7000 |}];
                    next_id := 2 |}))).
Proof.
  apply (get_me_independent_of_hashes Reference.jwt Reference.world).
  repeat constructor.
Defined.






(** ** Register, then log in, then ask who I am *)

Section Flow.

Variable bcrypt : BcryptLib.
Variable jwt : JwtLib.
Variable zod_email : string -> bool.



End Flow.





(** ** The health check and the page that polls it *)

Lemma health_run (dbConnected : bool) (st : St) :
  App.axios_get (Some (res (snd (health dbConnected st)))) =
  if dbConnected then
    Return (JObj [("status", JStr "ok");
                  ("message", JStr "Backend and database are connected");
                  ("database", JStr "connected")])
  else Throw (Error "Request failed").
Proof. destruct dbConnected; reflexivity. Qed.

(** X17. The page reflects the database.  Whatever the page showed before,
    once [checkConnection] has received the answer of [GET /api/health], the
    page is no longer loading, and it shows "Connected" exactly when
    [checkDatabaseConnection] reported a connection and "Not Connected"
    otherwise. *)
Theorem app_reflects_database :
  forall (dbConnected : bool) (st : St) (s : App.State),
    App.checkConnection (Some (res (snd (health dbConnected st)))) s =
      {| App.isConnected := dbConnected; App.isLoading := false |}
    /\ App.render (App.checkConnection (Some (res (snd (health dbConnected st)))) s) =
       ["Hello World"; if dbConnected then "Connected" else "Not Connected"].
Proof.
  intros dbConnected st s.
  assert (Hstate : App.checkConnection (Some (res (snd (health dbConnected st)))) s =
                   {| App.isConnected := dbConnected; App.isLoading := false |}).
  { unfold App.checkConnection, App.try_block. rewrite health_run.
    destruct dbConnected; reflexivity. }
  rewrite Hstate. split; [reflexivity|].
  destruct dbConnected; reflexivity.
Qed.


Lemma register_twice_witness :
  let st1 :=
    {| db := Reference.registered_db;
       res := created {| User.id := 1; User.email := "a@b.com";
                         User.password_hash :=
                           "$2b$10$IgmoIgmoIgmoIgmoIgmoIesecret1IgmoIgmoIgmoIgmoIgmoIe";
                         User.name := None; User.created_at := 7000 |};
       calls := [CallQuery (SelectIdByEmail "a@b.com");
                 CallHashPassword "secret1";
                 CallQuery
                   (InsertUser "a@b.com"
                      "$2b$10$IgmoIgmoIgmoIgmoIgmoIesecret1IgmoIgmoIgmoIgmoIgmoIe"
                      None)] |} in
  exists e,
    length (filter (by_email e) (users (db st1))) = 1%nat
    /\ register Reference.bcrypt Reference.zod_email Reference.configured
         (Reference.request None (Reference.credentials "a@b.com" "secret1") None)
         st1 =
       (Return tt,
        {| db := db st1;
           res := respond 400 "Email already exists";
           calls := calls st1 ++ [CallQuery (SelectIdByEmail e)] |}).
Proof.
  intros st1.
  apply (register_twice Reference.bcrypt Reference.zod_email Reference.world
           Reference.configured
           (Reference.request None (Reference.credentials "a@b.com" "secret1") None)
           (Reference.start Reference.empty_db) st1).
  - vm_compute. reflexivity.
  - reflexivity.
Defined.
